(** * kalshi_bot: research notebooks and infrastructure, embedded in Rocq

    The development follows the repository's own layout:
    - [strategy/research/post_trade/worst_performance.ipynb]: the fills
      loop that fills the [pd] dictionary and the [final_profit] loop;
    - the credential loader [load_env_vars_from_file] shared by the
      notebooks;
    - the trade plotter of the large-trades notebook;
    - the price-band cleaning cell;
    - the Terraform resources of the [features_raw] bucket.

    Python [int] is unbounded and is modelled by [Z]; a [datetime]
    instant by its POSIX time in microseconds; a [str] by [string] where
    the code only compares it or passes it on, and by the list of its
    code points where the code takes it apart. *)

From Stdlib Require Import ZArith String Ascii List Bool Lia QArith Qround Sorted.
From stdpp Require Import base gmap strings list.

Open Scope Z_scope.

(** ** Exceptions

    A call either returns a value or raises an instance of [Exception];
    [ex] is the text [str(ex)] of the raised exception. *)
Inductive exn_result (A : Type) : Type :=
  | Returned (a : A)
  | Raised (ex : string).
Arguments Returned {A} a.
Arguments Raised {A} ex.

(** ** helpers.types: the enumerations and records the notebooks read

    The classes live in [helpers.types.orders], [helpers.types.markets]
    and [helpers.types.portfolio]; the notebooks name the members and the
    attributes listed here. *)
Module Side.
Inductive t : Set := YES | NO.
#[global] Instance eq_dec : EqDecision t.
Proof. solve_decision. Defined.
End Side.

Module TradeType.
Inductive t : Set := BUY | SELL.
#[global] Instance eq_dec : EqDecision t.
Proof. solve_decision. Defined.
End TradeType.

Module MarketResult.
(** [OTHER] stands for every member that is neither [YES] nor [NO]
    (a market that has not settled). *)
Inductive t : Set := YES | NO | OTHER (member : string).
#[global] Instance eq_dec : EqDecision t.
Proof. solve_decision. Defined.
End MarketResult.

(** [created_time] is a timezone-aware datetime, compared with [start]
    as an instant. *)
Module Fill.
Record t : Set := mk {
    ticker : string;
    side : Side.t;
    action : TradeType.t;
    yes_price : Z;
    no_price : Z;
    count : Z;
    is_taker : bool;
    created_time : Z
  }.
End Fill.

Module Market.
Record t : Set := mk {
    ticker : string;
    result : MarketResult.t
  }.
End Market.

Module GetFillsRequest.
Record t : Set := mk {
    ticker : option string;
    min_ts : option Z
  }.
End GetFillsRequest.

(** ** Trade records

    The notebooks read a trade by attribute name in one place only, and
    which names it answers to is what is at stake there; so a trade is
    taken as Python has it: a finite map from attribute names to values,
    where reading a missing attribute raises AttributeError. *)
Inductive PyValue : Type :=
  | PyInt (n : Z)
  | PyStr (s : string)
  | PyDatetime (micros : Z)
  | PyEnum (value : string).

Definition getattr (o : gmap string PyValue) (name : string) : exn_result PyValue :=
  match o !! name with
  | Some v => Returned v
  | None => Raised ("object has no attribute '" +:+ name +:+ "'")
  end.

(** ** list.sort(key=...)

    Python's sort is stable; so is this insertion sort, which places an
    element before the first element of the sorted tail whose key is not
    smaller. *)
Fixpoint insert_by {A : Type} (key : A -> Z) (x : A) (l : list A) : list A :=
  match l with
  | [] => [x]
  | y :: l' => if key x <=? key y then x :: y :: l' else y :: insert_by key x l'
  end.

Fixpoint sort_by {A : Type} (key : A -> Z) (l : list A) : list A :=
  match l with
  | [] => []
  | x :: l' => insert_by key x (sort_by key l')
  end.

(** ** worst_performance.ipynb: ProfitData and the fills loop *)

(** [@dataclass class ProfitData: positions: int = 0; spent: int = 0;
    made: int = 0]. *)
Record ProfitData : Set := mkProfitData {
  positions : Z;
  spent : Z;
  made : Z
}.

(** [ProfitData()], the value the [defaultdict] factory builds. *)
Definition ProfitData_init : ProfitData :=
  {| positions := 0; spent := 0; made := 0 |}.

Definition add_spent (x : Z) (d : ProfitData) : ProfitData :=
  {| positions := positions d; spent := spent d + x; made := made d |}.

Definition add_made (x : Z) (d : ProfitData) : ProfitData :=
  {| positions := positions d; spent := spent d; made := made d + x |}.

Definition add_positions (x : Z) (d : ProfitData) : ProfitData :=
  {| positions := positions d + x; spent := spent d; made := made d |}.

(** [pd = defaultdict(lambda: ProfitData())]: a dictionary in insertion
    order, which is the order [pd.items()] yields. *)
Definition defaultdict : Type := list (string * ProfitData).

Fixpoint dd_find (t : string) (pd : defaultdict) : option ProfitData :=
  match pd with
  | [] => None
  | (k, d) :: pd' => if bool_decide (k = t) then Some d else dd_find t pd'
  end.

Fixpoint dd_alter (f : ProfitData -> ProfitData) (t : string)
    (pd : defaultdict) : defaultdict :=
  match pd with
  | [] => []
  | (k, d) :: pd' =>
      if bool_decide (k = t) then (k, f d) :: pd' else (k, d) :: dd_alter f t pd'
  end.

(** The object [pd[t]] evaluates to: the stored record, or the factory's
    record for a missing key. *)
Definition dd_get (t : string) (pd : defaultdict) : ProfitData :=
  match dd_find t pd with
  | Some d => d
  | None => ProfitData_init
  end.

(** [pd[t].field += x]: [pd[t]] inserts [ProfitData()] at the end when
    [t] is missing, then the record is updated in place. *)
Definition dd_update (t : string) (f : ProfitData -> ProfitData)
    (pd : defaultdict) : defaultdict :=
  match dd_find t pd with
  | Some _ => dd_alter f t pd
  | None => pd ++ [(t, f ProfitData_init)]
  end.

(** The condition of the [if] in the loop body. *)
Definition buys_yes (fill : Fill.t) : bool :=
  (bool_decide (Fill.side fill = Side.YES)
     && bool_decide (Fill.action fill = TradeType.BUY))
  || (bool_decide (Fill.side fill = Side.NO)
        && bool_decide (Fill.action fill = TradeType.SELL)).

(** The body of [for fill in fills], statement by statement, on [pd]. *)
Definition process_fill (fill : Fill.t) (pd : defaultdict) : defaultdict :=
  let t := Fill.ticker fill in
  if buys_yes fill then
    let pd := dd_update t (add_spent (Fill.yes_price fill * Fill.count fill)) pd in
    let pd :=
      if positions (dd_get t pd) <? 0 then
        dd_update t
          (add_made (Z.min (Fill.count fill) (Z.abs (positions (dd_get t pd))) * 100))
          pd
      else pd in
    dd_update t (add_positions (Fill.count fill)) pd
  else
    let pd := dd_update t (add_spent (Fill.no_price fill * Fill.count fill)) pd in
    let pd :=
      if 0 <? positions (dd_get t pd) then
        dd_update t
          (add_made (Z.min (Fill.count fill) (Z.abs (positions (dd_get t pd))) * 100))
          pd
      else pd in
    dd_update t (add_positions (- Fill.count fill)) pd.

(** [print("taker fill: ", fill.ticker)]: the two arguments are joined by
    one more space. *)
Definition taker_line (fill : Fill.t) : list string :=
  if Fill.is_taker fill then ["taker fill:  " +:+ Fill.ticker fill] else [].

(** The loop carries the dictionary and the lines printed so far. *)
Definition fills_body (st : defaultdict * list string) (fill : Fill.t)
    : defaultdict * list string :=
  (process_fill fill (fst st), snd st ++ taker_line fill).

Definition fills_loop (fills : list Fill.t) (st : defaultdict * list string)
    : defaultdict * list string :=
  fold_left fills_body fills st.

(** The dictionary after the cell has run over [fills], which the cell
    before sorted by [created_time]. *)
Definition pd_after (fills : list Fill.t) : defaultdict :=
  fst (fills_loop (sort_by Fill.created_time fills) ([], [])).

(** What one fill does to the record of its own ticker. *)
Definition fill_effect (fill : Fill.t) (d : ProfitData) : ProfitData :=
  if buys_yes fill then
    let d := add_spent (Fill.yes_price fill * Fill.count fill) d in
    let d :=
      if positions d <? 0
      then add_made (Z.min (Fill.count fill) (Z.abs (positions d)) * 100) d
      else d in
    add_positions (Fill.count fill) d
  else
    let d := add_spent (Fill.no_price fill * Fill.count fill) d in
    let d :=
      if 0 <? positions d
      then add_made (Z.min (Fill.count fill) (Z.abs (positions d)) * 100) d
      else d in
    add_positions (- Fill.count fill) d.

(** ** worst_performance.ipynb: the final_profit loop *)

(** [exchange.interface.ExchangeInterface] as the notebooks call it. The
    client is not part of the notebooks: a call acts on the state [W] of
    the outside world and returns or raises. [get_trades] stands for
    [list(e.get_trades(ticker))], which runs the iterator to its end. *)
Record ExchangeInterface (W : Type) : Type := mkExchange {
  get_market : string -> W -> exn_result Market.t * W;
  get_fills : GetFillsRequest.t -> W -> exn_result (list Fill.t) * W;
  get_trades : string -> W -> exn_result (list (gmap string PyValue)) * W
}.
Arguments get_market {W} e ticker w : rename.
Arguments get_fills {W} e request w : rename.
Arguments get_trades {W} e ticker w : rename.

(** What the loop does that can be observed from outside. *)
Inductive Event : Type :=
  | CallGetMarket (ticker : string)
  | CallGetFills (request : GetFillsRequest.t)
  | Print (line : string).

(** The ticker an exchange call is made for. *)
Definition call_ticker (ev : Event) : option string :=
  match ev with
  | CallGetMarket ticker => Some ticker
  | CallGetFills request => GetFillsRequest.ticker request
  | Print _ => None
  end.

Record LoopState (W : Type) : Type := mkLoopState {
  final_profit : gmap string Z;
  world : W;
  trace : list Event
}.
Arguments mkLoopState {W} final_profit world trace.
Arguments final_profit {W} st : rename.
Arguments world {W} st : rename.
Arguments trace {W} st : rename.

(** [GetFillsRequest(ticker=ticker)]. *)
Definition fills_of_ticker (ticker : string) : GetFillsRequest.t :=
  GetFillsRequest.mk (Some ticker) None.

(** [len(fi) > 0 and fi[0].created_time < start]. *)
Definition had_fills_before (start : Z) (fi : list Fill.t) : bool :=
  match fi with
  | [] => false
  | first :: _ => Fill.created_time first <? start
  end.

(** The body of [for ticker, data in pd.items()]. A branch that ends in
    [continue] hands on [final_profit] as it found it. *)
Definition final_profit_body {W : Type} (e : ExchangeInterface W) (start : Z)
    (st : LoopState W) (item : string * ProfitData) : LoopState W :=
  let '(ticker, data) := item in
  let profit := made data - spent data in
  if bool_decide (positions data <> 0) then
    match get_market e ticker (world st) with
    | (Raised ex, w) =>
        mkLoopState (final_profit st) w
          (trace st ++ [CallGetMarket ticker; Print ex])
    | (Returned m, w) =>
        match get_fills e (fills_of_ticker ticker) w with
        | (Raised ex, w) =>
            mkLoopState (final_profit st) w
              (trace st ++ [CallGetMarket ticker;
                            CallGetFills (fills_of_ticker ticker); Print ex])
        | (Returned fi, w) =>
            let fi := sort_by Fill.created_time fi in
            let tr := trace st ++ [CallGetMarket ticker;
                                   CallGetFills (fills_of_ticker ticker)] in
            if had_fills_before start fi then
              mkLoopState (final_profit st) w
                (tr ++ [Print ("Had fills before start time:  " +:+ Market.ticker m)])
            else
              match Market.result m with
              | MarketResult.NO =>
                  let profit :=
                    if positions data <? 0
                    then profit + Z.abs (positions data) * 100 else profit in
                  mkLoopState (<[ticker := profit]> (final_profit st)) w tr
              | MarketResult.YES =>
                  let profit :=
                    if 0 <? positions data
                    then profit + Z.abs (positions data) * 100 else profit in
                  mkLoopState (<[ticker := profit]> (final_profit st)) w tr
              | MarketResult.OTHER _ =>
                  mkLoopState (final_profit st) w
                    (tr ++ [Print ("market not settled:  " +:+ Market.ticker m)])
              end
        end
    end
  else
    mkLoopState (<[ticker := profit]> (final_profit st)) (world st) (trace st).

Definition final_profit_loop {W : Type} (e : ExchangeInterface W) (start : Z)
    (items : defaultdict) (st : LoopState W) : LoopState W :=
  fold_left (final_profit_body e start) items st.

(** The cell: [final_profit = dict()], then the loop over [pd.items()]. *)
Definition final_profit_cell {W : Type} (e : ExchangeInterface W) (start : Z)
    (pd : defaultdict) (w : W) : LoopState W :=
  final_profit_loop e start pd (mkLoopState ∅ w []).

(** One of the two calls for [ticker] raises, in the world [w]. *)
Definition exchange_call_raises {W : Type} (e : ExchangeInterface W)
    (ticker : string) (w : W) : bool :=
  match get_market e ticker w with
  | (Raised _, _) => true
  | (Returned _, w1) =>
      match get_fills e (fills_of_ticker ticker) w1 with
      | (Raised _, _) => true
      | (Returned _, _) => false
      end
  end.

(** Both calls for [ticker] return, in the world [w]: the market and the
    fills they return. *)
Definition exchange_answers {W : Type} (e : ExchangeInterface W)
    (ticker : string) (w : W) : option (Market.t * list Fill.t) :=
  match get_market e ticker w with
  | (Raised _, _) => None
  | (Returned m, w1) =>
      match get_fills e (fills_of_ticker ticker) w1 with
      | (Raised _, _) => None
      | (Returned fi, _) => Some (m, fi)
      end
  end.

(** The market settled on the side of the net position. *)
Definition result_matches (r : MarketResult.t) (pos : Z) : bool :=
  match r with
  | MarketResult.NO => pos <? 0
  | MarketResult.YES => 0 <? pos
  | MarketResult.OTHER _ => false
  end.

Definition settled (r : MarketResult.t) : bool :=
  match r with
  | MarketResult.NO | MarketResult.YES => true
  | MarketResult.OTHER _ => false
  end.

(** The earliest fill by [created_time] precedes [start]. *)
Definition earliest_fill_precedes (start : Z) (fi : list Fill.t) : Prop :=
  exists first, In first fi
    /\ (forall f, In f fi -> Fill.created_time first <= Fill.created_time f)
    /\ Fill.created_time first < start.

(** ** Predicates used to state the properties of the fills loop *)

(** The prices and the count of a fill are not negative. *)
Definition nonneg_fill (fill : Fill.t) : Prop :=
  0 <= Fill.yes_price fill /\ 0 <= Fill.no_price fill /\ 0 <= Fill.count fill.

(** The price a fill pays per contract: [yes_price] in the first branch,
    [no_price] in the [else] branch. *)
Definition paid_price (fill : Fill.t) : Z :=
  if buys_yes fill then Fill.yes_price fill else Fill.no_price fill.

(** A fill offsets a position of the opposite sign. *)
Definition offsets (fill : Fill.t) (d : ProfitData) : bool :=
  if buys_yes fill then positions d <? 0 else 0 <? positions d.

(** Every record of the dictionary has non-negative [spent] and [made]. *)
Definition nonneg_pd (pd : defaultdict) : Prop :=
  forall t, 0 <= spent (dd_get t pd) /\ 0 <= made (dd_get t pd).

(** The order [sort_by] sorts into. *)
Definition key_le {A} (key : A -> Z) (a b : A) : Prop := key a <= key b.

(** ** worst_performance.ipynb: the cells in order

    [start = datetime(2024, 10, 14).astimezone(pytz.UTC)]: midnight of the
    system zone, [system_utcoffset] seconds east of UTC. *)
Definition start_datetime (system_utcoffset : Z) : Z :=
  (1728864000 - system_utcoffset) * 1000000.

(** [GetFillsRequest(min_ts=int(start.timestamp()))]. *)
Definition fills_since (start : Z) : GetFillsRequest.t :=
  GetFillsRequest.mk None (Some (start / 1000000)).

(** The cells from [fills = e.get_fills(...)] to the [final_profit] loop.
    The first call is not inside a [try]. *)
Definition notebook {W : Type} (e : ExchangeInterface W) (system_utcoffset : Z)
    (w : W) : exn_result (LoopState W) :=
  let start := start_datetime system_utcoffset in
  match get_fills e (fills_since start) w with
  | (Raised ex, _) => Raised ex
  | (Returned fills, w1) =>
      let fills := sort_by Fill.created_time fills in
      let '(pd, printed) := fills_loop fills ([], []) in
      Returned
        (final_profit_loop e start pd
           (mkLoopState ∅ w1 (CallGetFills (fills_since start) :: map Print printed)))
  end.

(** ** The run recorded in the notebook

    The outputs stored in worst_performance.ipynb: [pd] after the fills
    loop and [final_profit] after the last loop. *)
Definition recorded_pd : defaultdict :=
  [ ("HIGHCHI-24OCT15-B50.5", mkProfitData (-7) 5442 5300);
    ("HIGHNY-24OCT15-B58.5", mkProfitData (-20) 9148 8000);
    ("HIGHCHI-24OCT15-B48.5", mkProfitData (-3) 2582 2200);
    ("HIGHNY-24OCT15-B56.5", mkProfitData 0 4305 3900);
    ("HIGHMIA-24OCT15-B86.5", mkProfitData (-12) 9333 8600);
    ("HIGHAUS-24OCT15-B96.5", mkProfitData 20 5894 5700);
    ("HIGHAUS-24OCT15-B98.5", mkProfitData (-20) 3710 4100);
    ("INX-24OCT15-B5812", mkProfitData (-20) 1540 0);
    ("HIGHMIA-24OCT15-B88.5", mkProfitData 20 640 0) ].

Definition recorded_final_profit : list (string * Z) :=
  [ ("HIGHCHI-24OCT15-B50.5", 558);
    ("HIGHNY-24OCT15-B58.5", 852);
    ("HIGHCHI-24OCT15-B48.5", -382);
    ("HIGHNY-24OCT15-B56.5", -405);
    ("HIGHMIA-24OCT15-B86.5", -733);
    ("HIGHAUS-24OCT15-B96.5", -194);
    ("HIGHAUS-24OCT15-B98.5", 390);
    ("INX-24OCT15-B5812", -1540);
    ("HIGHMIA-24OCT15-B88.5", -640) ].

(** A fill answers a request: it is of the requested ticker and not
    older than [min_ts] seconds, where these are given. *)
Definition request_matches (request : GetFillsRequest.t) (f : Fill.t) : bool :=
  match GetFillsRequest.ticker request with
  | Some ticker => bool_decide (Fill.ticker f = ticker)
  | None => true
  end
  && match GetFillsRequest.min_ts request with
     | Some min_ts => min_ts * 1000000 <=? Fill.created_time f
     | None => true
     end.

(** An exchange that answers from a table of settled markets and a list
    of fills, each fill also listed as a trade, and raises for a market
    it does not know; its state counts the calls. Used to replay runs. *)
Definition table_exchange (markets : list (string * MarketResult.t))
    (fills : list Fill.t) : ExchangeInterface nat :=
  {| get_market := fun ticker n =>
       (match list_find (fun kv => fst kv = ticker) markets with
        | Some (_, (_, r)) => Returned (Market.mk ticker r)
        | None => Raised ("market not found: " +:+ ticker)
        end, S n);
     get_fills := fun request n =>
       (Returned (List.filter (request_matches request) fills), S n);
     get_trades := fun ticker n =>
       (Returned
          (map (fun f : Fill.t =>
                  {[ "created_time" := PyDatetime (Fill.created_time f);
                     "yes_price" := PyInt (Fill.yes_price f);
                     "no_price" := PyInt (Fill.no_price f);
                     "count" := PyInt (Fill.count f);
                     "taker_side" :=
                       PyEnum (match Fill.side f with
                               | Side.YES => "yes"
                               | Side.NO => "no"
                               end) ]})
             (List.filter (request_matches (fills_of_ticker ticker)) fills)),
        S n) |}.

(** Market results under which the recorded [pd] gives the recorded
    [final_profit]. *)
Definition recorded_markets : list (string * MarketResult.t) :=
  [ ("HIGHCHI-24OCT15-B50.5", MarketResult.NO);
    ("HIGHNY-24OCT15-B58.5", MarketResult.NO);
    ("HIGHCHI-24OCT15-B48.5", MarketResult.YES);
    ("HIGHNY-24OCT15-B56.5", MarketResult.NO);
    ("HIGHMIA-24OCT15-B86.5", MarketResult.YES);
    ("HIGHAUS-24OCT15-B96.5", MarketResult.NO);
    ("HIGHAUS-24OCT15-B98.5", MarketResult.YES);
    ("INX-24OCT15-B5812", MarketResult.YES);
    ("HIGHMIA-24OCT15-B88.5", MarketResult.NO) ].

(** The start time of the notebook for a system clock on UTC:
    2024-10-14 00:00:00, in microseconds. *)
Definition recorded_start : Z := start_datetime 0.

(** A few fills of one market, out of order. *)
Definition sample_fills : list Fill.t :=
  [ Fill.mk "HIGHNY-24OCT15-B56.5" Side.YES TradeType.BUY 40 60 5 false
      (recorded_start + 3000000);
    Fill.mk "HIGHNY-24OCT15-B56.5" Side.NO TradeType.BUY 45 55 10 true
      (recorded_start + 1000000);
    Fill.mk "HIGHNY-24OCT15-B56.5" Side.NO TradeType.SELL 50 50 5 false
      (recorded_start + 2000000) ].

(** ** load_env_vars_from_file (both notebooks)

    The loader takes its strings apart character by character, so a
    [str] is here the list of its code points; [u"..."] is a literal of
    ASCII characters and [ord] the code point of one. *)
Abbreviation str := (list N).

Definition ord (c : ascii) : N := N_of_ascii c.

Definition u (s : string) : str := map ord (list_ascii_of_string s).

(** [c in s]. *)
Fixpoint contains (c : N) (s : str) : bool :=
  match s with
  | [] => false
  | c' :: s' => N.eqb c' c || contains c s'
  end.

(** [s.startswith(prefix)]. *)
Fixpoint startswith (prefix s : str) : bool :=
  match prefix, s with
  | [], _ => true
  | _ :: _, [] => false
  | c :: prefix', c' :: s' => N.eqb c c' && startswith prefix' s'
  end.

(** [s.split(sep)] for a separator of one character: every occurrence
    of [sep] ends a field, and the fields may be empty. *)
Fixpoint split (sep : N) (s : str) : list str :=
  match s with
  | [] => [[]]
  | c :: s' =>
      if N.eqb c sep then [] :: split sep s'
      else match split sep s' with
           | [] => [[c]]
           | field :: fields => (c :: field) :: fields
           end
  end.

(** [s[1:-1]]: the characters from the second to the last but one. *)
Definition slice_1_m1 (s : str) : str := take (length s - 2)%nat (drop 1 s).

(** [l[i]], which raises IndexError out of range. *)
Definition index {A : Type} (l : list A) (i : nat) : exn_result A :=
  match l !! i with
  | Some x => Returned x
  | None => Raised "list index out of range"
  end.

(** The surrogates, U+D800..U+DFFF. The text of a decoded file holds
    none: its characters are Unicode scalar values. *)
Definition surrogate (c : N) : bool := ((55296 <=? c) && (c <=? 57343))%N.

Definition scalar (c : N) : bool := (negb (surrogate c) && (c <=? 1114111))%N.

(** The code points the file system encoding, UTF-8 with the
    [surrogateescape] handler, can encode: all but the surrogates
    outside U+DC80..U+DCFF. *)
Definition encodable (c : N) : bool :=
  ((negb (surrogate c) || ((56448 <=? c) && (c <=? 56575)))
   && (c <=? 1114111))%N.

(** [os.environ[name] = value] on a POSIX system: the name and the value
    are encoded for the operating system, which refuses a NUL in the
    name or the value, an [=] in the name and an empty name. *)
Definition environ_set (name value : str) (environ : gmap str str)
    : exn_result (gmap str str) :=
  if negb (forallb encodable name && forallb encodable value)
  then Raised "surrogates not allowed"
  else if contains 0%N name || contains 0%N value then Raised "embedded null byte"
  else if contains (ord "=") name then Raised "illegal environment variable name"
  else if bool_decide (name = []) then Raised "[Errno 22] Invalid argument"
  else Returned (<[name := value]> environ).

(** The body of [for line in file.splitlines()]. *)
Definition load_line (line : str) (environ : gmap str str)
    : exn_result (gmap str str) :=
  if startswith (u"export") line then
    match index (split (ord " ") line) 1 with
    | Raised ex => Raised ex
    | Returned field =>
        let var_to_value := split (ord "=") field in
        match index var_to_value 0 with
        | Raised ex => Raised ex
        | Returned var_ =>
            match index var_to_value 1 with
            | Raised ex => Raised ex
            | Returned quoted => environ_set var_ (slice_1_m1 quoted) environ
            end
        end
    end
  else Returned environ.

(** [load_env_vars_from_file], on the lines [path.read_text().splitlines()]
    of the file. An exception ends the loop; the variables set before it
    stay set, so the environment is returned in both cases. *)
Fixpoint load_env_vars_from_file (lines : list str)
    (environ : gmap str str) : gmap str str * option string :=
  match lines with
  | [] => (environ, None)
  | line :: lines' =>
      match load_line line environ with
      | Raised ex => (environ, Some ex)
      | Returned environ' => load_env_vars_from_file lines' environ'
      end
  end.

(** The line [export NAME=QUOTED], with one space after [export]. *)
Definition export_line (name quoted : str) : str :=
  u"export " ++ name ++ u"=" ++ quoted.

(** A name and a quoted value that the loop reads whole and that the
    environment takes: a non-empty name; no space, [=] or NUL in either;
    scalar values only. *)
Definition well_formed (name quoted : str) : Prop :=
  name <> []
  /\ contains (ord " ") name = false /\ contains (ord " ") quoted = false
  /\ contains (ord "=") name = false /\ contains (ord "=") quoted = false
  /\ contains 0%N name = false /\ contains 0%N quoted = false
  /\ forallb scalar name = true /\ forallb scalar quoted = true.

(** The script of the README. *)
Definition readme_creds : list str :=
  [ u"#!/bin/sh";
    u"";
    u"export API_URL='https://demo-api.kalshi.co/trade-api'";
    u"export API_VERSION='v2'";
    u"export API_USERNAME='your-email@email.com'";
    u"export API_PASSWORD='some-password'" ].

(** ** analyze_non_daily_large_move_tickers.ipynb: the trades of plotter *)

(** [x.timestamp()], a method of datetime objects; the instant stands
    for the float it returns. *)
Definition timestamp (v : PyValue) : exn_result PyValue :=
  match v with
  | PyDatetime micros => Returned (PyDatetime micros)
  | _ => Raised "object has no attribute 'timestamp'"
  end.

(** [[f(t) for t in trades]]: the first exception ends the comprehension. *)
Fixpoint comprehension {A B : Type} (f : A -> exn_result B) (l : list A)
    : exn_result (list B) :=
  match l with
  | [] => Returned []
  | x :: l' =>
      match f x with
      | Raised ex => Raised ex
      | Returned y =>
          match comprehension f l' with
          | Raised ex => Raised ex
          | Returned ys => Returned (y :: ys)
          end
      end
  end.

Record TradeColumns : Type := mkTradeColumns {
  trade_ts : list PyValue;
  trade_price : list PyValue;
  trade_quantity : list PyValue;
  trade_side : list PyValue
}.

(** The four comprehensions of [plotter] over [trades = list(e.get_trades(ticker))]. *)
Definition trade_columns (trades : list (gmap string PyValue))
    : exn_result TradeColumns :=
  match comprehension
          (fun t => match getattr t "created_time" with
                    | Raised ex => Raised ex
                    | Returned v => timestamp v
                    end) trades with
  | Raised ex => Raised ex
  | Returned ts =>
      match comprehension (fun t => getattr t "yes_price") trades with
      | Raised ex => Raised ex
      | Returned price =>
          match comprehension (fun t => getattr t "count") trades with
          | Raised ex => Raised ex
          | Returned quantity =>
              match comprehension (fun t => getattr t "taker_side") trades with
              | Raised ex => Raised ex
              | Returned side => Returned (mkTradeColumns ts price quantity side)
              end
          end
      end
  end.

(** One round of the generator [plotter], for one line [ticker] of the
    file of tickers, up to the four lists. Reading the order book from
    [db] and the drawing are left out. *)
Definition plotter {W : Type} (e : ExchangeInterface W) (ticker : string) (w : W)
    : exn_result TradeColumns * W :=
  match get_trades e ticker w with
  | (Raised ex, w') => (Raised ex, w')
  | (Returned trades, w') => (trade_columns trades, w')
  end.

(** The attributes [plotter] reads off a trade. *)
Definition trade_readable (t : gmap string PyValue) : Prop :=
  (exists micros, t !! "created_time" = Some (PyDatetime micros))
  /\ is_Some (t !! "yes_price")
  /\ is_Some (t !! "count")
  /\ is_Some (t !! "taker_side").

Definition returns {A : Type} (r : exn_result A) : Prop :=
  exists a, r = Returned a.

(** A trade with the attributes [plotter] reads, [taker_side] among them
    and no [side]; and the same trade with that attribute named [side]. *)
Definition sample_trade : gmap string PyValue :=
  {[ "created_time" := PyDatetime (recorded_start + 5000000);
     "yes_price" := PyInt 45;
     "no_price" := PyInt 55;
     "count" := PyInt 10;
     "taker_side" := PyEnum "yes" ]}.

Definition sample_trade_with_side : gmap string PyValue :=
  {[ "created_time" := PyDatetime (recorded_start + 5000000);
     "yes_price" := PyInt 45;
     "no_price" := PyInt 55;
     "count" := PyInt 10;
     "side" := PyEnum "yes" ]}.

(** Two fills agree on the attributes the fills loop reads. *)
Definition same_fill_for_loop (f f' : Fill.t) : Prop :=
  Fill.ticker f = Fill.ticker f'
  /\ Fill.side f = Fill.side f'
  /\ Fill.action f = Fill.action f'
  /\ Fill.yes_price f = Fill.yes_price f'
  /\ Fill.no_price f = Fill.no_price f'
  /\ Fill.count f = Fill.count f'
  /\ Fill.is_taker f = Fill.is_taker f'.

(** ** Terraform: the features_raw bucket and its IAM policies *)
Module Terraform.

(** One element of [Statement] in a policy document. *)
Record statement : Type := mkStatement {
  Action : list string;
  Effect : string;
  Resource : string
}.

(** The argument of [jsonencode] in a [policy] attribute. *)
Record policy_document : Type := mkPolicyDocument {
  Version : string;
  Statement : list statement
}.

(** [resource "aws_iam_policy"]. *)
Record aws_iam_policy : Type := mkPolicy {
  name : string;
  path : string;
  description : string;
  policy : policy_document
}.

(** [locals { env = "prod" }]. *)
Definition env : string := "prod".

(** [aws_s3_bucket.features_raw.bucket]. *)
Definition features_raw_bucket : string := "dead-gecco-" +:+ env +:+ "-features-raw".

(** [toset([...])]. *)
Definition toset (l : list string) : gset string := list_to_set l.

(** [for_each = s]: one instance of the resource per element of the set,
    addressed by [each.key]. *)
Definition for_each {A : Type} (s : gset string) (instance : string -> A)
    : gmap string A :=
  set_to_map (fun key => (key, instance key)) s.

(** [resource "aws_iam_policy" "features_raw_source_rw"]; [arn] is the
    attribute [aws_s3_bucket.features_raw.arn], which the provider
    computes for the bucket. *)
Definition features_raw_source_rw (arn : string) : gmap string aws_iam_policy :=
  for_each (toset ["cole"; "test"; "databento"]) (fun key =>
    {| name := "features_raw_" +:+ env +:+ "_" +:+ key +:+ "_rw";
       path := "/";
       description := "Read and write to the raw " +:+ env +:+ " " +:+ key +:+ " features.";
       policy :=
         {| Version := "2012-10-17";
            Statement :=
              [ {| Action := ["s3:PutObject"; "s3:GetObject";
                              "s3:ListBucket"; "s3:DeleteObject"];
                   Effect := "Allow";
                   Resource := arn +:+ "/" +:+ key +:+ "/*" |} ] |} |}).

(** [resource "aws_iam_policy" "features_raw_all_rw"]. *)
Definition features_raw_all_rw (arn : string) : aws_iam_policy :=
  {| name := "features_raw_" +:+ env +:+ "_all_rw";
     path := "/";
     description := "Read and write to the " +:+ env +:+ " raw features.";
     policy :=
       {| Version := "2012-10-17";
          Statement :=
            [ {| Action := ["s3:PutObject"; "s3:GetObject";
                            "s3:ListBucket"; "s3:DeleteObject"];
                 Effect := "Allow";
                 Resource := arn +:+ "/*" |} ] |} |}.

End Terraform.

(** ** The price-band notebook: the cleaning cell *)

(** The float64 nearest to an integer, ties to even: the value an int64
    takes when pandas compares the column against a float, and the value
    of a float product whose exact result is this integer. *)
Definition float64_of_int (z : Z) : Z :=
  let a := Z.abs z in
  if a <? 2 ^ 53 then z
  else
    let ulp := 2 ^ (Z.log2 a - 52) in
    let q := a / ulp in
    let r := a mod ulp in
    let q' :=
      if 2 * r <? ulp then q
      else if ulp <? 2 * r then q + 1
      else if Z.even q then q else q + 1 in
    Z.sgn z * (q' * ulp).

(** A line of the CSV dump: [ts_recv] in nanoseconds since the epoch,
    [price] in fixed point, and [action]. *)
Module Row.
Record t : Set := mk {
  ts_recv : Z;
  price : Z;
  action : string
}.
End Row.

(** The two UTC offsets, in seconds east of UTC on the day of the data,
    that the datetime calls consult: that of US/Eastern, and that of the
    zone the system clock is set to. *)
Record Clock : Set := mkClock {
  eastern_utcoffset : Z;
  system_utcoffset : Z
}.

(** [pd.to_datetime(ts, unit="ns").tz_localize(utc).tz_convert(eastern).date()],
    as days since the epoch. *)
Definition day_of_data (clock : Clock) (ts : Z) : Z :=
  (ts / 10 ^ 9 + eastern_utcoffset clock) / 86400.

(** [datetime.combine(date, time(hour, minute)).astimezone(tz).timestamp()]:
    the combined datetime is naive, and [astimezone] reads a naive
    datetime as a time of the system zone, whatever [tz] is. *)
Definition combine_timestamp (clock : Clock) (date hour minute : Z) : Z :=
  date * 86400 + hour * 3600 + minute * 60 - system_utcoffset clock.

(** [... .timestamp() * 1e9] for [market_open = time(9, 30)] and
    [market_close = time(16, 0)]. *)
Definition market_open_full_datetime_ns (clock : Clock) (date : Z) : Z :=
  float64_of_int (combine_timestamp clock date 9 30 * 10 ^ 9).

Definition market_close_full_datetime_ns (clock : Clock) (date : Z) : Z :=
  float64_of_int (combine_timestamp clock date 16 0 * 10 ^ 9).

(** 9:30 and 16:00 of that day in US/Eastern, in nanoseconds: the
    bounds the notebook names. *)
Definition eastern_time_ns (clock : Clock) (date hour minute : Z) : Z :=
  (date * 86400 + hour * 3600 + minute * 60 - eastern_utcoffset clock) * 10 ^ 9.

(** [Series.quantile(q)]: linear interpolation between the two nearest
    order statistics, NaN ([None]) for an empty series. The interpolation
    is exact here; pandas rounds it to float64. *)
Definition quantile (q : Q) (values : list Z) : option Q :=
  let sorted := sort_by id values in
  let pos := (q * inject_Z (Z.of_nat (length sorted) - 1))%Q in
  let lo := Qfloor pos in
  match sorted !! Z.to_nat lo, sorted !! Z.to_nat (lo + 1) with
  | Some a, Some b =>
      Some (inject_Z a + inject_Z (b - a) * (pos - inject_Z lo))%Q
  | Some a, None => Some (inject_Z a)
  | None, _ => None
  end.

(** [(price < high) & (price > low)]; a comparison with NaN is false. *)
Definition in_band (low high : option Q) (price : Z) : bool :=
  match low, high with
  | Some low, Some high =>
      negb (Qle_bool high (inject_Z price)) && negb (Qle_bool (inject_Z price) low)
  | _, _ => false
  end.

(** The cell, from [df = pd.read_csv(...)] to [df4]. A frame is the
    list of its rows with their index labels; [df3] keeps the columns
    [ts_recv] and [price]. [normalize] is [False]. *)
Definition clean_cell (clock : Clock) (csv : list Row.t)
    : exn_result (list (nat * (Z * Z))) :=
  let df := imap pair csv in
  match df with
  | [] => Raised "single positional indexer is out-of-bounds"
  | (_, first) :: _ =>
      let date := day_of_data clock (Row.ts_recv first) in
      let df1 :=
        filter (fun r =>
                  market_open_full_datetime_ns clock date
                    <= float64_of_int (Row.ts_recv (snd r))
                  /\ float64_of_int (Row.ts_recv (snd r))
                    <= market_close_full_datetime_ns clock date) df in
      let df2 := filter (fun r => Row.action (snd r) = "T") df1 in
      let df3 := (fun r => (fst r, (Row.ts_recv (snd r), Row.price (snd r)))) <$> df2 in
      let high := quantile (99 # 100) (map (fun r => snd (snd r)) df3) in
      let low := quantile (1 # 100) (map (fun r => snd (snd r)) df3) in
      let df4 := filter (fun r => in_band low high (snd (snd r)) = true) df3 in
      Returned df4
  end.

(** A dump of 2023-09-14 and a system clock on UTC, as in the
    [python:3.11-slim] image of the repository's Dockerfile; US/Eastern
    is then four hours behind UTC. *)
Definition utc_clock : Clock := mkClock (-14400) 0.

(** The same day on a system clock set to US/Eastern. *)
Definition eastern_clock : Clock := mkClock (-14400) (-14400).

Definition sep14_utc (hour minute : Z) : Z :=
  (1694649600 + hour * 3600 + minute * 60) * 10 ^ 9.

Definition sample_csv : list Row.t :=
  [ Row.mk (sep14_utc 12 0) 100 "T";
    Row.mk (sep14_utc 12 30) 200 "T";
    Row.mk (sep14_utc 12 45) 300 "T";
    Row.mk (sep14_utc 19 0) 100 "T";
    Row.mk (sep14_utc 19 15) 200 "T";
    Row.mk (sep14_utc 19 30) 300 "T" ].

(** ** Totals over the fills of one ticker

    Used to state what the fills loop has accumulated. *)

(** The contracts a fill adds to the net position: [count] in the first
    branch of the loop body, [-count] in the [else] branch. *)
Definition signed_count (fill : Fill.t) : Z :=
  if buys_yes fill then Fill.count fill else - Fill.count fill.

(** [sum(g(fill) for fill in fills if fill.ticker == t)]. *)
Fixpoint ticker_sum (g : Fill.t -> Z) (t : string) (fills : list Fill.t) : Z :=
  match fills with
  | [] => 0
  | fill :: fills' =>
      if bool_decide (Fill.ticker fill = t)
      then g fill + ticker_sum g t fills'
      else ticker_sum g t fills'
  end.

Definition paid (fill : Fill.t) : Z := paid_price fill * Fill.count fill.

(** The tickers [get_market] was called for, in the order of the calls;
    and the requests [get_fills] was called with. *)
Definition market_calls (tr : list Event) : list string :=
  omap (fun ev => match ev with CallGetMarket t => Some t | _ => None end) tr.

Definition fills_calls (tr : list Event) : list GetFillsRequest.t :=
  omap (fun ev => match ev with CallGetFills r => Some r | _ => None end) tr.

(** The tickers of [pd] with a net position, in the order of [pd.items()]. *)
Definition open_tickers (pd : defaultdict) : list string :=
  map fst (List.filter (fun item => negb (positions (snd item) =? 0)) pd).

(** A profit an iteration may record for a record [d]. *)
Definition profit_of (d : ProfitData) (v : Z) : Prop :=
  made d - spent d <= v <= made d - spent d + Z.abs (positions d) * 100
  /\ (v = made d - spent d \/ v = made d - spent d + Z.abs (positions d) * 100)
  /\ (positions d = 0 -> v = made d - spent d).

(** ** worst_performance.ipynb: the last two cells

    [sorted(final_profit.items(), key=lambda x: x[1])] and
    [sum(final_profit.values())], on the list [final_profit.items()]. *)
Definition sorted_by_profit (items : list (string * Z)) : list (string * Z) :=
  sort_by snd items.

Definition sum_values (items : list (string * Z)) : Z :=
  foldr (fun item acc => snd item + acc) 0 items.

(** [df3] of the cleaning cell: the trades inside the window, with
    their index labels and the columns [ts_recv] and [price]; empty for a
    dump without rows, where the cell has raised before. *)
Definition window_trades (clock : Clock) (csv : list Row.t) : list (nat * (Z * Z)) :=
  match csv with
  | [] => []
  | first :: _ =>
      let date := day_of_data clock (Row.ts_recv first) in
      let df1 :=
        filter (fun r =>
                  market_open_full_datetime_ns clock date
                    <= float64_of_int (Row.ts_recv (snd r))
                  /\ float64_of_int (Row.ts_recv (snd r))
                    <= market_close_full_datetime_ns clock date) (imap pair csv) in
      let df2 := filter (fun r => Row.action (snd r) = "T") df1 in
      (fun r => (fst r, (Row.ts_recv (snd r), Row.price (snd r)))) <$> df2
  end.

(** * Properties *)

Section Defaultdict.

Lemma dd_find_alter_eq f t pd :
    dd_find t (dd_alter f t pd) = f <$> dd_find t pd.
Proof.
    induction pd as [|[k d] pd IH]; simpl; [done|].
    case_bool_decide as Hk; simpl.
    - by rewrite bool_decide_true.
    - by rewrite bool_decide_false.
  Qed.

Lemma dd_find_alter_ne f t t' pd :
    t <> t' -> dd_find t' (dd_alter f t pd) = dd_find t' pd.
Proof.
    intros Hne. induction pd as [|[k d] pd IH]; simpl; [done|].
    case_bool_decide as Hk; simpl.
    - subst k. by rewrite !bool_decide_false.
    - by rewrite IH.
  Qed.

Lemma dd_find_app t pd1 pd2 :
    dd_find t (pd1 ++ pd2) =
    match dd_find t pd1 with Some d => Some d | None => dd_find t pd2 end.
Proof.
    induction pd1 as [|[k d] pd1 IH]; simpl; [done|].
    by case_bool_decide.
  Qed.

Lemma dd_get_update_eq t f pd :
    dd_get t (dd_update t f pd) = f (dd_get t pd).
Proof.
    unfold dd_get, dd_update.
    destruct (dd_find t pd) as [d|] eqn:Hf.
    - by rewrite dd_find_alter_eq, Hf.
    - rewrite dd_find_app, Hf. simpl. by rewrite bool_decide_true.
  Qed.

Lemma dd_get_update_ne t t' f pd :
    t <> t' -> dd_get t' (dd_update t f pd) = dd_get t' pd.
Proof.
    intros Hne. unfold dd_get, dd_update.
    destruct (dd_find t pd) as [d|] eqn:Hf.
    - by rewrite dd_find_alter_ne.
    - rewrite dd_find_app. destruct (dd_find t' pd); [done|].
      simpl. by rewrite bool_decide_false.
  Qed.

End Defaultdict.

Lemma process_fill_own fill pd :
  dd_get (Fill.ticker fill) (process_fill fill pd)
  = fill_effect fill (dd_get (Fill.ticker fill) pd).
Proof.
  unfold process_fill, fill_effect.
  destruct (buys_yes fill); rewrite !dd_get_update_eq;
    repeat (case_match; rewrite ?dd_get_update_eq in * ); congruence.
Qed.

Lemma process_fill_other fill pd t :
  Fill.ticker fill <> t ->
  dd_get t (process_fill fill pd) = dd_get t pd.
Proof.
  intros Hne. unfold process_fill.
  destruct (buys_yes fill); repeat case_match;
    by rewrite ?dd_get_update_ne.
Qed.

(** ** The fills loop *)

Lemma fill_effect_spent fill d :
  spent (fill_effect fill d) = spent d + paid_price fill * Fill.count fill.
Proof.
  unfold fill_effect, paid_price.
  destruct (buys_yes fill); simpl; repeat case_match; reflexivity.
Qed.

Lemma fill_effect_made fill d :
  made (fill_effect fill d)
  = made d + (if offsets fill d
              then Z.min (Fill.count fill) (Z.abs (positions d)) * 100
              else 0).
Proof.
  unfold fill_effect, offsets.
  destruct (buys_yes fill); simpl; repeat case_match; simpl; lia.
Qed.

Lemma fill_effect_positions fill d :
  positions (fill_effect fill d)
  = positions d + (if buys_yes fill then Fill.count fill else - Fill.count fill).
Proof.
  unfold fill_effect.
  destruct (buys_yes fill); simpl; repeat case_match; simpl; lia.
Qed.

Lemma Forall_insert_by {A} (P : A -> Prop) key x l :
  P x -> Forall P l -> Forall P (insert_by key x l).
Proof.
  intros Hx. induction 1 as [|y l Hy Hl IH]; simpl.
  - by constructor.
  - case_match; repeat constructor; auto.
Qed.

Lemma Forall_sort_by {A} (P : A -> Prop) key l :
  Forall P l -> Forall P (sort_by key l).
Proof.
  induction 1; simpl; [constructor|]. by apply Forall_insert_by.
Qed.

Lemma fills_loop_snoc p fill st :
  fills_loop (p ++ [fill]) st = fills_body (fills_loop p st) fill.
Proof. unfold fills_loop. by rewrite fold_left_app. Qed.

Lemma nonneg_pd_nil : nonneg_pd [].
Proof. intros t. unfold dd_get. simpl. lia. Qed.

Lemma process_fill_nonneg fill pd :
  nonneg_fill fill -> nonneg_pd pd -> nonneg_pd (process_fill fill pd).
Proof.
  intros (Hy & Hn & Hc) Hpd t.
  destruct (decide (Fill.ticker fill = t)) as [<-|Hne].
  - rewrite process_fill_own, fill_effect_spent, fill_effect_made.
    destruct (Hpd (Fill.ticker fill)) as [Hs Hm].
    assert (0 <= paid_price fill) by (unfold paid_price; case_match; lia).
    split; [nia|]. case_match; lia.
  - rewrite process_fill_other by done. apply Hpd.
Qed.

Lemma fills_loop_nonneg p st :
  Forall nonneg_fill p -> nonneg_pd (fst st) -> nonneg_pd (fst (fills_loop p st)).
Proof.
  intros Hp. revert st. induction Hp as [|f p Hf Hp IH]; intros st Hst; [done|].
  simpl. apply IH. simpl. by apply process_fill_nonneg.
Qed.

(** C3. [ProfitData] is the record of the three integers [positions],
    [spent] and [made]; the record the loop finds for a ticker it has not
    seen yet has all three at 0, and the first fill of that ticker acts on
    these zeros. *)
Theorem ProfitData_three_fields_start_at_zero (fill : Fill.t) (pd : defaultdict) :
  dd_find (Fill.ticker fill) pd = None ->
  (forall d : ProfitData, d = mkProfitData (positions d) (spent d) (made d))
  /\ ProfitData_init = mkProfitData 0 0 0
  /\ positions (dd_get (Fill.ticker fill) pd) = 0
  /\ spent (dd_get (Fill.ticker fill) pd) = 0
  /\ made (dd_get (Fill.ticker fill) pd) = 0
  /\ dd_get (Fill.ticker fill) (process_fill fill pd)
     = fill_effect fill (mkProfitData 0 0 0).
Proof.
  intros Hnew.
  assert (Hget : dd_get (Fill.ticker fill) pd = ProfitData_init)
    by (unfold dd_get; by rewrite Hnew).
  split; [by intros []|]. split; [reflexivity|].
  rewrite process_fill_own, Hget. by repeat split.
Qed.

(** C8. With non-negative prices and counts, after every prefix of the
    sorted fills the [spent] and [made] of every ticker are non-negative;
    the next fill adds [price * count] to the [spent] of its ticker, adds
    [min(count, |positions|) * 100] to its [made] exactly when it offsets
    a position of the opposite sign, lowers neither, and leaves the other
    tickers as they were. *)
Theorem fills_loop_spent_made_invariant
    (fills p rest : list Fill.t) (t : string) :
  Forall nonneg_fill fills ->
  sort_by Fill.created_time fills = p ++ rest ->
  let pd0 := fst (fills_loop p ([], [])) in
  (0 <= spent (dd_get t pd0) /\ 0 <= made (dd_get t pd0))
  /\ forall fill rest', rest = fill :: rest' ->
       let pd1 := fst (fills_loop (p ++ [fill]) ([], [])) in
       let own := dd_get (Fill.ticker fill) pd0 in
       spent (dd_get t pd0) <= spent (dd_get t pd1)
       /\ made (dd_get t pd0) <= made (dd_get t pd1)
       /\ spent (dd_get (Fill.ticker fill) pd1)
          = spent own + paid_price fill * Fill.count fill
       /\ made (dd_get (Fill.ticker fill) pd1)
          = made own
            + (if offsets fill own
               then Z.min (Fill.count fill) (Z.abs (positions own)) * 100
               else 0)
       /\ (Fill.ticker fill <> t -> dd_get t pd1 = dd_get t pd0).
Proof.
  intros Hnn Hsort pd0.
  assert (Hall : Forall nonneg_fill (p ++ rest))
    by (rewrite <- Hsort; by apply Forall_sort_by).
  apply Forall_app in Hall as [Hp Hrest].
  assert (H0 : nonneg_pd pd0) by (apply fills_loop_nonneg; [done|apply nonneg_pd_nil]).
  split; [apply H0|].
  intros fill rest' -> pd1 own.
  apply Forall_cons in Hrest as [(Hy & Hn & Hc) _].
  assert (Hpd1 : pd1 = process_fill fill pd0)
    by (unfold pd1; by rewrite fills_loop_snoc).
  assert (Hprice : 0 <= paid_price fill) by (unfold paid_price; case_match; lia).
  assert (Hs : spent (dd_get (Fill.ticker fill) pd1)
               = spent own + paid_price fill * Fill.count fill)
    by (rewrite Hpd1, process_fill_own; apply fill_effect_spent).
  assert (Hm : made (dd_get (Fill.ticker fill) pd1)
               = made own
                 + (if offsets fill own
                    then Z.min (Fill.count fill) (Z.abs (positions own)) * 100
                    else 0))
    by (rewrite Hpd1, process_fill_own; apply fill_effect_made).
  assert (Hother : Fill.ticker fill <> t -> dd_get t pd1 = dd_get t pd0)
    by (intros Hne; rewrite Hpd1; by apply process_fill_other).
  destruct (decide (Fill.ticker fill = t)) as [Heq|Hne].
  - subst t. fold own. rewrite Hs, Hm.
    repeat split; try done; [nia|case_match; lia].
  - rewrite (Hother Hne). repeat split; try done; lia.
Qed.

(** ** The keys of [pd] are distinct *)

Lemma dd_alter_keys f t pd : map fst (dd_alter f t pd) = map fst pd.
Proof.
  induction pd as [|[k d] pd IH]; simpl; [done|].
  case_bool_decide; simpl; by rewrite ?IH.
Qed.

Lemma dd_find_None t pd : dd_find t pd = None <-> ~ In t (map fst pd).
Proof.
  induction pd as [|[k d] pd IH]; simpl; [tauto|].
  case_bool_decide; [|tauto]. split; [done|tauto].
Qed.

Lemma dd_update_NoDup t f pd :
  NoDup (map fst pd) -> NoDup (map fst (dd_update t f pd)).
Proof.
  intros Hnd. unfold dd_update. destruct (dd_find t pd) eqn:Hf.
  - by rewrite dd_alter_keys.
  - rewrite map_app. simpl. apply NoDup_app. split; [done|].
    split; [|apply NoDup_singleton].
    intros k Hk%list_elem_of_In ->%list_elem_of_singleton.
    by apply dd_find_None in Hf.
Qed.

Lemma process_fill_NoDup fill pd :
  NoDup (map fst pd) -> NoDup (map fst (process_fill fill pd)).
Proof.
  intros Hnd. unfold process_fill.
  repeat case_match; repeat apply dd_update_NoDup; done.
Qed.

Lemma fills_loop_NoDup fills st :
  NoDup (map fst (fst st)) -> NoDup (map fst (fst (fills_loop fills st))).
Proof.
  revert st. induction fills as [|f fills IH]; intros st Hst; [done|].
  simpl. apply IH. simpl. by apply process_fill_NoDup.
Qed.

Lemma pd_after_NoDup fills : NoDup (map fst (pd_after fills)).
Proof. apply fills_loop_NoDup. simpl. constructor. Qed.


(** ** Sorting by key *)

Lemma insert_by_In {A} (key : A -> Z) x y l :
  In y (insert_by key x l) <-> y = x \/ In y l.
Proof.
  induction l as [|z l IH]; simpl; [intuition congruence|].
  case_match; simpl; rewrite ?IH; intuition congruence.
Qed.

Lemma sort_by_In {A} (key : A -> Z) y l :
  In y (sort_by key l) <-> In y l.
Proof.
  induction l as [|x l IH]; simpl; [done|].
  rewrite insert_by_In, IH. intuition congruence.
Qed.

Lemma insert_by_sorted {A} (key : A -> Z) x l :
  StronglySorted (key_le key) l ->
  StronglySorted (key_le key) (insert_by key x l).
Proof.
  induction 1 as [|y l Hl IH Hy]; simpl.
  - repeat constructor.
  - destruct (Z.leb_spec (key x) (key y)) as [Hle|Hgt].
    + constructor; [by constructor|].
      constructor; [done|].
      eapply Forall_impl; [exact Hy|]. unfold key_le. intros; lia.
    + constructor; [done|].
      apply Forall_forall. intros z Hz%list_elem_of_In%insert_by_In.
      destruct Hz as [->|Hz]; [unfold key_le; lia|].
      rewrite Forall_forall in Hy. apply Hy. by apply list_elem_of_In.
Qed.

Lemma sort_by_sorted {A} (key : A -> Z) l :
  StronglySorted (key_le key) (sort_by key l).
Proof.
  induction l; simpl; [constructor|]. by apply insert_by_sorted.
Qed.

Lemma sort_by_head_least {A} (key : A -> Z) l x l' y :
  sort_by key l = x :: l' -> In y l -> key x <= key y.
Proof.
  intros Hs Hy. pose proof (sort_by_sorted key l) as Hsorted.
  apply (sort_by_In key) in Hy. rewrite Hs in Hsorted, Hy.
  inversion Hsorted as [|? ? _ Hall]; subst.
  destruct Hy as [->|Hy]; [lia|].
  rewrite Forall_forall in Hall. apply Hall. by apply list_elem_of_In.
Qed.

(** [sort_by] rearranges the list, and keeps elements of equal key in
    the order they had: it is the stable sort that [list.sort] is. *)
Lemma insert_by_Permutation {A} (key : A -> Z) x l :
  insert_by key x l ≡ₚ x :: l.
Proof.
  induction l as [|y l IH]; simpl; [done|].
  case_match; [done|]. rewrite IH. apply Permutation_swap.
Qed.

Lemma sort_by_Permutation {A} (key : A -> Z) l : sort_by key l ≡ₚ l.
Proof.
  induction l as [|x l IH]; simpl; [done|].
  by rewrite insert_by_Permutation, IH.
Qed.

Lemma filter_key_insert_by {A} (key : A -> Z) k x l :
  filter (fun y => key y = k) (insert_by key x l)
  = if decide (key x = k)
    then x :: filter (fun y => key y = k) l
    else filter (fun y => key y = k) l.
Proof.
  induction l as [|y l IH]; simpl.
  - rewrite filter_cons. by case_decide.
  - destruct (Z.leb_spec (key x) (key y)) as [Hle|Hgt].
    + rewrite (filter_cons _ x). by case_decide.
    + rewrite !(filter_cons _ y), IH.
      repeat case_decide; try done; lia.
Qed.

Lemma sort_by_stable {A} (key : A -> Z) k l :
  filter (fun y => key y = k) (sort_by key l) = filter (fun y => key y = k) l.
Proof.
  induction l as [|x l IH]; simpl; [done|].
  rewrite filter_key_insert_by, filter_cons, IH. by case_decide.
Qed.


Lemma had_fills_before_earliest start fi :
  had_fills_before start (sort_by Fill.created_time fi) = true
  <-> earliest_fill_precedes start fi.
Proof.
  unfold had_fills_before, earliest_fill_precedes.
  destruct (sort_by Fill.created_time fi) as [|first rest] eqn:Hs.
  - split; [done|]. intros (f & Hf & _).
    apply (sort_by_In Fill.created_time) in Hf. rewrite Hs in Hf. destruct Hf.
  - rewrite Z.ltb_lt. split.
    + intros Hlt. exists first. split; [|split; [|done]].
      * apply (sort_by_In Fill.created_time). rewrite Hs. by left.
      * intros f Hf. by eapply sort_by_head_least.
    + intros (f & Hf & _ & Hlt).
      pose proof (sort_by_head_least _ _ _ _ _ Hs Hf). lia.
Qed.

(** ** The final_profit loop *)

Section FinalProfit.

Context {W : Type} (e : ExchangeInterface W) (start : Z).

Local Abbreviation body := (final_profit_body e start).
Local Abbreviation loop := (final_profit_loop e start).
Local Abbreviation cell := (final_profit_cell e start).

Lemma loop_app items1 items2 (st : LoopState W) :
  loop (items1 ++ items2) st = loop items2 (loop items1 st).
Proof. unfold final_profit_loop. apply fold_left_app. Qed.

Lemma body_other (st : LoopState W) ticker data t :
  ticker <> t ->
  final_profit (body st (ticker, data)) !! t = final_profit st !! t.
Proof.
  intros Hne. unfold final_profit_body.
  repeat case_match; simpl; by rewrite ?lookup_insert_ne.
Qed.

Lemma loop_other items (st : LoopState W) t :
  ~ In t (map fst items) ->
  final_profit (loop items st) !! t = final_profit st !! t.
Proof.
  revert st. induction items as [|[k d] items IH]; intros st Hnot; [done|].
  simpl in *. rewrite IH by tauto. apply body_other. tauto.
Qed.

Lemma NoDup_keys_split (before after : defaultdict) ticker data :
  NoDup (map fst (before ++ (ticker, data) :: after)) ->
  ~ In ticker (map fst before) /\ ~ In ticker (map fst after)
  /\ forall t, In t (map fst before) -> ~ In t (map fst after).
Proof.
  rewrite map_app. simpl. intros Hnd.
  apply NoDup_app in Hnd as (Hb & Hdisj & Ha).
  apply NoDup_cons in Ha as [Ha1 Ha2].
  repeat split.
  - intros Hin%list_elem_of_In. apply (Hdisj _ Hin). by left.
  - intros Hin%list_elem_of_In. done.
  - intros t Hin%list_elem_of_In Hin'%list_elem_of_In.
    apply (Hdisj _ Hin). by right.
Qed.

Lemma cell_lookup before after ticker data w :
  NoDup (map fst (before ++ (ticker, data) :: after)) ->
  final_profit (cell (before ++ (ticker, data) :: after) w) !! ticker
  = final_profit (body (loop before (mkLoopState ∅ w [])) (ticker, data)) !! ticker.
Proof.
  intros (_ & Ha & _)%NoDup_keys_split.
  unfold final_profit_cell. rewrite loop_app. simpl.
  by rewrite loop_other.
Qed.

Lemma loop_before_fresh before after ticker data w :
  NoDup (map fst (before ++ (ticker, data) :: after)) ->
  final_profit (loop before (mkLoopState ∅ w [])) !! ticker = None.
Proof.
  intros (Hb & _ & _)%NoDup_keys_split.
  by rewrite loop_other.
Qed.

Lemma body_trace_calls (st : LoopState W) ticker data ev t :
  In ev (trace (body st (ticker, data))) ->
  call_ticker ev = Some t ->
  In ev (trace st) \/ (ticker = t /\ positions data <> 0).
Proof.
  unfold final_profit_body. case_bool_decide as Hpos; [|by left].
  intros Hin Hcall.
  assert (Hnew : forall evs,
    In ev (trace st ++ evs) ->
    (forall ev', In ev' evs -> call_ticker ev' = Some t -> ticker = t) ->
    In ev (trace st) \/ (ticker = t /\ positions data <> 0)).
  { intros evs [?|Hev]%in_app_iff Hevs; [by left|].
    right. split; [|done]. by apply (Hevs ev). }
  repeat case_match; simpl in Hin; rewrite <- ?app_assoc in Hin;
    apply (Hnew _ Hin); simpl; intros ev' Hev' Hcall';
    repeat destruct Hev' as [<-|Hev']; simpl in Hcall'; by simplify_eq.
Qed.

Lemma loop_trace_calls items (st : LoopState W) ev t :
  In ev (trace (loop items st)) ->
  call_ticker ev = Some t ->
  In ev (trace st) \/ exists data, In (t, data) items /\ positions data <> 0.
Proof.
  revert st. induction items as [|[k d] items IH]; intros st Hin Hcall.
  - by left.
  - simpl in Hin. destruct (IH _ Hin Hcall) as [Hst|(d' & Hd' & Hpos)].
    + destruct (body_trace_calls _ _ _ _ _ Hst Hcall) as [?|[-> Hpos]].
      * by left.
      * right. exists d. split; [by left|done].
    + right. exists d'. split; [by right|done].
Qed.

Lemma NoDup_keys_unique (items : defaultdict) t d d' :
  NoDup (map fst items) -> In (t, d) items -> In (t, d') items -> d = d'.
Proof.
  induction items as [|[k x] items IH]; simpl; [done|].
  intros [Hk Hnd]%NoDup_cons [Heq|Hin] [Heq'|Hin']; simplify_eq; auto.
  - exfalso. apply Hk. apply list_elem_of_In.
    change t with (fst (t, d')). by apply in_map.
  - exfalso. apply Hk. apply list_elem_of_In.
    change t with (fst (t, d)). by apply in_map.
Qed.

(** C2. For a ticker whose net position is exactly zero, the iteration
    stores [made - spent] and touches neither the exchange nor the
    output; the entry is still there at the end of the loop, and no
    exchange call of the whole loop is made for that ticker. *)
Theorem flat_ticker_profit_without_calls
    (before after : defaultdict) (ticker : string) (data : ProfitData) (w : W) :
  positions data = 0 ->
  NoDup (map fst (before ++ (ticker, data) :: after)) ->
  let st1 := loop before (mkLoopState ∅ w []) in
  let st2 := body st1 (ticker, data) in
  let final := cell (before ++ (ticker, data) :: after) w in
  final_profit st2 = <[ticker := made data - spent data]> (final_profit st1)
  /\ world st2 = world st1
  /\ trace st2 = trace st1
  /\ final_profit final !! ticker = Some (made data - spent data)
  /\ forall ev, In ev (trace final) -> call_ticker ev <> Some ticker.
Proof.
  intros Hpos Hnd st1 st2 final.
  assert (Hbody : st2 = mkLoopState
            (<[ticker := made data - spent data]> (final_profit st1))
            (world st1) (trace st1)).
  { unfold st2, final_profit_body. rewrite bool_decide_false; [done|].
    intros Hne. by apply Hne. }
  rewrite Hbody. simpl. repeat split.
  - unfold final. rewrite cell_lookup by done. fold st1 st2.
    rewrite Hbody. simpl. apply lookup_insert_eq.
  - intros ev Hev Hcall.
    destruct (loop_trace_calls _ _ _ _ Hev Hcall) as [[]|(d & Hd & Hd0)].
    assert (d = data); [|by subst].
    eapply NoDup_keys_unique; [exact Hnd|exact Hd|].
    apply in_app_iff. right. by left.
Qed.

Lemma raises_iff_no_answers ticker (w : W) :
  exchange_call_raises e ticker w = true <-> exchange_answers e ticker w = None.
Proof.
  unfold exchange_call_raises, exchange_answers.
  repeat case_match; split; congruence.
Qed.

(** The entry an iteration leaves for a ticker with a position, read off
    the answers of the exchange. *)
Lemma body_lookup_position (st : LoopState W) ticker data :
  positions data <> 0 ->
  final_profit st !! ticker = None ->
  final_profit (body st (ticker, data)) !! ticker
  = match exchange_answers e ticker (world st) with
    | None => None
    | Some (m, fi) =>
        if had_fills_before start (sort_by Fill.created_time fi) then None
        else if settled (Market.result m) then
          Some (made data - spent data
                + (if result_matches (Market.result m) (positions data)
                   then Z.abs (positions data) * 100 else 0))
        else None
    end.
Proof.
  intros Hpos Hnone. unfold final_profit_body, exchange_answers.
  rewrite bool_decide_true by done.
  destruct (get_market e ticker (world st)) as [[m|ex] w1]; [|done].
  destruct (get_fills e (fills_of_ticker ticker) w1) as [[fi|ex] w2]; [|done].
  simpl. destruct (had_fills_before _ _); [done|].
  destruct (Market.result m); simpl; rewrite ?lookup_insert_eq; try done;
    case_match; f_equal; lia.
Qed.

Lemma body_market_calls (st : LoopState W) ticker d :
  market_calls (trace (body st (ticker, d)))
  = market_calls (trace st)
    ++ (if negb (positions d =? 0) then [ticker] else []).
Proof.
  unfold final_profit_body, market_calls.
  destruct (Z.eqb_spec (positions d) 0) as [Hz|Hz]; simpl.
  - rewrite bool_decide_false by (intros Hn; by apply Hn). simpl.
    by rewrite app_nil_r.
  - rewrite bool_decide_true by done.
    repeat case_match; simpl; rewrite <- ?app_assoc, ?omap_app; done.
Qed.

Lemma loop_cons item items (st : LoopState W) :
  loop (item :: items) st = loop items (body st item).
Proof. reflexivity. Qed.

Lemma loop_market_calls items (st : LoopState W) :
  market_calls (trace (loop items st))
  = market_calls (trace st) ++ open_tickers items.
Proof.
  revert st. induction items as [|[k d] items IH]; intros st.
  - simpl. by rewrite app_nil_r.
  - rewrite loop_cons, IH, body_market_calls, <- app_assoc. f_equal.
    unfold open_tickers. simpl. by destruct (negb (positions d =? 0)).
Qed.

(** C1. For a ticker with a non-zero net position, when [get_market] or
    [get_fills] raises, the handler prints the exception and continues:
    [final_profit] is handed on unchanged, the entries of the tickers
    before stay as they were, and the ticker has no entry at the end.
    The loop goes on with the remaining tickers: [get_market] is called
    for each of them that has a net position, and each of them gets the
    entry of an iteration of its own, [made - spent] for a flat one and
    otherwise what the answers of the exchange give. *)
Theorem exchange_error_skips_ticker
    (before after : defaultdict) (ticker : string) (data : ProfitData) (w : W) :
  positions data <> 0 ->
  NoDup (map fst (before ++ (ticker, data) :: after)) ->
  let st1 := loop before (mkLoopState ∅ w []) in
  let st2 := body st1 (ticker, data) in
  let final := cell (before ++ (ticker, data) :: after) w in
  exchange_call_raises e ticker (world st1) = true ->
  final_profit st2 = final_profit st1
  /\ (exists ex, last (trace st2) = Some (Print ex))
  /\ final = loop after st2
  /\ (forall t, In t (map fst before) ->
        final_profit final !! t = final_profit st1 !! t)
  /\ final_profit final !! ticker = None
  /\ market_calls (trace final)
     = market_calls (trace st1) ++ ticker :: open_tickers after
  /\ (forall mid rest t d, after = mid ++ (t, d) :: rest ->
        final_profit final !! t
        = if bool_decide (positions d = 0) then Some (made d - spent d)
          else
            match exchange_answers e t (world (loop mid st2)) with
            | None => None
            | Some (m, fi) =>
                if had_fills_before start (sort_by Fill.created_time fi) then None
                else if settled (Market.result m) then
                  Some (made d - spent d
                        + (if result_matches (Market.result m) (positions d)
                           then Z.abs (positions d) * 100 else 0))
                else None
            end).
Proof.
  intros Hpos Hnd st1 st2 final Hraise.
  assert (Hskip : final_profit st2 = final_profit st1
                  /\ exists ex, last (trace st2) = Some (Print ex)).
  { unfold st2, final_profit_body. unfold exchange_call_raises in Hraise.
    rewrite bool_decide_true by done.
    destruct (get_market e ticker (world st1)) as [[m|ex] w1]; simpl.
    - destruct (get_fills e (fills_of_ticker ticker) w1) as [[fi|ex] w2];
        [done|]. simpl. split; [done|]. exists ex. by rewrite last_app.
    - split; [done|]. exists ex. by rewrite last_app. }
  destruct Hskip as [Hfp Hprint].
  assert (Hfinal : final = loop after st2)
    by (unfold final, final_profit_cell; by rewrite loop_app).
  pose proof (NoDup_keys_split _ _ _ _ Hnd) as (Hb & Ha & Hba).
  split; [exact Hfp|]. split; [exact Hprint|]. split; [exact Hfinal|].
  split; [|split; [|split]].
  - intros t Ht. rewrite Hfinal, loop_other by auto.
    unfold st2. rewrite body_other; [done|]. intros ->. auto.
  - unfold final. rewrite cell_lookup by done. fold st1 st2.
    rewrite Hfp. by eapply loop_before_fresh.
  - rewrite Hfinal, loop_market_calls. unfold st2.
    rewrite body_market_calls, <- app_assoc. f_equal.
    apply Z.eqb_neq in Hpos. by rewrite Hpos.
  - intros mid rest t d ->.
    assert (Hsplit : before ++ (ticker, data) :: mid ++ (t, d) :: rest
                     = (before ++ (ticker, data) :: mid) ++ (t, d) :: rest)
      by (by rewrite <- app_assoc).
    assert (Hst3 : loop (before ++ (ticker, data) :: mid) (mkLoopState ∅ w [])
                   = loop mid st2) by (by rewrite loop_app).
    unfold final. rewrite Hsplit in Hnd |- *.
    rewrite cell_lookup, Hst3 by done.
    case_bool_decide as Hd.
    + unfold final_profit_body. rewrite bool_decide_false by (intros Hn; by apply Hn).
      simpl. apply lookup_insert_eq.
    + rewrite body_lookup_position; [done|done|].
      rewrite <- Hst3. by eapply loop_before_fresh.
Qed.

(** C9. For a ticker with a non-zero net position whose market has
    settled YES or NO, the profit recorded for it is [made - spent] plus
    [|positions| * 100] exactly when the result is NO with a negative
    position or YES with a positive one, and [made - spent] alone on the
    losing side; the profit is recorded whenever [get_fills] returns and
    no fill precedes the start time. *)
Theorem settlement_credit_iff_result_matches
    (before after : defaultdict) (ticker : string) (data : ProfitData) (w : W)
    (m : Market.t) :
  positions data <> 0 ->
  NoDup (map fst (before ++ (ticker, data) :: after)) ->
  let st1 := loop before (mkLoopState ∅ w []) in
  let final := cell (before ++ (ticker, data) :: after) w in
  let wins :=
    (Market.result m = MarketResult.NO /\ positions data < 0)
    \/ (Market.result m = MarketResult.YES /\ 0 < positions data) in
  fst (get_market e ticker (world st1)) = Returned m ->
  settled (Market.result m) = true ->
  0 < Z.abs (positions data) * 100
  /\ (forall profit, final_profit final !! ticker = Some profit ->
        (wins -> profit = made data - spent data + Z.abs (positions data) * 100)
        /\ (~ wins -> profit = made data - spent data))
  /\ (forall fi, exchange_answers e ticker (world st1) = Some (m, fi) ->
        ~ earliest_fill_precedes start fi ->
        is_Some (final_profit final !! ticker)).
Proof.
  intros Hpos Hnd st1 final wins Hmarket Hsettled.
  assert (Hwins : result_matches (Market.result m) (positions data) = true <-> wins).
  { unfold wins, result_matches. destruct (Market.result m); simpl;
      rewrite ?Z.ltb_lt; intuition congruence. }
  assert (Hlook : final_profit final !! ticker
    = match exchange_answers e ticker (world st1) with
      | None => None
      | Some (_, fi) =>
          if had_fills_before start (sort_by Fill.created_time fi) then None
          else Some (made data - spent data
                     + (if result_matches (Market.result m) (positions data)
                        then Z.abs (positions data) * 100 else 0))
      end).
  { unfold final. rewrite cell_lookup by done. fold st1.
    rewrite body_lookup_position; [|done|by eapply loop_before_fresh].
    fold st1. unfold exchange_answers.
    destruct (get_market e ticker (world st1)) as [[m'|ex] w1];
      simpl in Hmarket; [|done].
    injection Hmarket as ->.
    destruct (get_fills e (fills_of_ticker ticker) w1) as [[fi|ex] w2]; [|done].
    by rewrite Hsettled. }
  split; [lia|]. rewrite Hlook. split.
  - intros profit Hprofit.
    destruct (exchange_answers e ticker (world st1)) as [[m' fi]|]; [|done].
    destruct (had_fills_before _ _); [done|]. injection Hprofit as <-.
    split; intros Hw.
    + apply Hwins in Hw. by rewrite Hw.
    + destruct (result_matches _ _); [by destruct Hw; apply Hwins|]. lia.
  - intros fi Hans Hearly. rewrite Hans.
    destruct (had_fills_before _ _) eqn:Hb; [|by eexists].
    by apply had_fills_before_earliest in Hb.
Qed.

(** C10. A ticker with a non-zero net position has no entry in
    [final_profit] exactly when an exchange call for it raised, or its
    earliest fill by [created_time] precedes the start time, or the market
    result is neither YES nor NO; in every other case it has an entry. *)
Theorem omitted_exactly_when_skipped
    (before after : defaultdict) (ticker : string) (data : ProfitData) (w : W) :
  positions data <> 0 ->
  NoDup (map fst (before ++ (ticker, data) :: after)) ->
  let st1 := loop before (mkLoopState ∅ w []) in
  let final := cell (before ++ (ticker, data) :: after) w in
  let skipped :=
    exchange_call_raises e ticker (world st1) = true
    \/ exists m fi, exchange_answers e ticker (world st1) = Some (m, fi)
         /\ (earliest_fill_precedes start fi
             \/ (Market.result m <> MarketResult.YES
                 /\ Market.result m <> MarketResult.NO)) in
  (final_profit final !! ticker = None <-> skipped)
  /\ (is_Some (final_profit final !! ticker) <-> ~ skipped).
Proof.
  intros Hpos Hnd st1 final skipped.
  assert (Hsettled : forall r, settled r = false
            <-> r <> MarketResult.YES /\ r <> MarketResult.NO)
    by (intros []; simpl; intuition congruence).
  assert (Hiff : final_profit final !! ticker = None <-> skipped).
  { unfold final, skipped. rewrite cell_lookup by done. fold st1.
    rewrite body_lookup_position; [|done|by eapply loop_before_fresh].
    fold st1. rewrite raises_iff_no_answers.
    destruct (exchange_answers e ticker (world st1)) as [[m fi]|];
      [|split; [by left|done]].
    destruct (had_fills_before _ _) eqn:Hb.
    - apply had_fills_before_earliest in Hb. split; [|done].
      intros _. right. exists m, fi. auto.
    - assert (Hne : ~ earliest_fill_precedes start fi).
      { intros He%had_fills_before_earliest. congruence. }
      destruct (settled (Market.result m)) eqn:Hs.
      + split; [done|]. intros [Hr|(m' & fi' & Heq & [He|Hr])]; simplify_eq.
        apply Hsettled in Hr. congruence.
      + split; [|done]. intros _. right. exists m, fi.
        split; [done|]. right. by apply Hsettled. }
  split; [done|]. rewrite <- Hiff, <- not_eq_None_Some. done.
Qed.

End FinalProfit.

(** ** Replaying the recorded run *)

Example recorded_run_replayed :
  let final :=
    final_profit_cell (table_exchange recorded_markets []) recorded_start
      recorded_pd 0%nat in
  map (fun item => (fst item, final_profit final !! fst item)) recorded_pd
  = map (fun entry => (fst entry, Some (snd entry))) recorded_final_profit.
Proof. vm_compute. reflexivity. Qed.


(** ** Instances on the recorded run *)

Lemma recorded_pd_NoDup : NoDup (map fst recorded_pd).
Proof. apply (bool_decide_unpack (NoDup (map fst recorded_pd))). vm_compute. exact I. Defined.

Lemma ProfitData_three_fields_start_at_zero_witness :
  dd_find "HIGHNY-24OCT15-B56.5" recorded_pd = Some (mkProfitData 0 4305 3900)
  /\ dd_find "HIGHNY-24OCT15-B56.5" [] = None
  /\ dd_get "HIGHNY-24OCT15-B56.5"
       (process_fill
          (Fill.mk "HIGHNY-24OCT15-B56.5" Side.NO TradeType.BUY 45 55 10 true 0) [])
     = mkProfitData (-10) 550 0.
Proof.
  split; [reflexivity|]. split; [reflexivity|].
  pose proof (ProfitData_three_fields_start_at_zero
    (Fill.mk "HIGHNY-24OCT15-B56.5" Side.NO TradeType.BUY 45 55 10 true 0) []
    eq_refl) as (_ & _ & _ & _ & _ & Hfirst).
  exact Hfirst.
Defined.

Lemma fills_loop_spent_made_invariant_witness :
  Forall nonneg_fill sample_fills
  /\ sort_by Fill.created_time sample_fills
     = firstn 2 (sort_by Fill.created_time sample_fills)
       ++ skipn 2 (sort_by Fill.created_time sample_fills)
  /\ dd_get "HIGHNY-24OCT15-B56.5"
       (fst (fills_loop (firstn 2 (sort_by Fill.created_time sample_fills)) ([], [])))
     = mkProfitData (-5) 800 500
  /\ made (dd_get "HIGHNY-24OCT15-B56.5" (pd_after sample_fills))
     = 500 + Z.min 5 (Z.abs (-5)) * 100.
Proof.
  assert (Hnn : Forall nonneg_fill sample_fills).
  { repeat constructor; simpl; lia. }
  assert (Hsplit : sort_by Fill.created_time sample_fills
     = firstn 2 (sort_by Fill.created_time sample_fills)
       ++ skipn 2 (sort_by Fill.created_time sample_fills)) by reflexivity.
  split; [exact Hnn|]. split; [exact Hsplit|]. split; [reflexivity|].
  pose proof (fills_loop_spent_made_invariant sample_fills
    (firstn 2 (sort_by Fill.created_time sample_fills))
    (skipn 2 (sort_by Fill.created_time sample_fills))
    "HIGHNY-24OCT15-B56.5" Hnn Hsplit) as [_ Hstep].
  destruct (Hstep _ [] eq_refl) as (_ & _ & _ & Hmade & _).
  exact Hmade.
Defined.

Lemma exchange_error_skips_ticker_witness :
  let e := table_exchange (firstn 4 recorded_markets ++ skipn 5 recorded_markets) [] in
  let final := final_profit_cell e recorded_start recorded_pd 0%nat in
  positions (mkProfitData (-12) 9333 8600) <> 0
  /\ NoDup (map fst recorded_pd)
  /\ exchange_call_raises e "HIGHMIA-24OCT15-B86.5"
       (world (final_profit_loop e recorded_start (firstn 4 recorded_pd)
                 (mkLoopState ∅ 0%nat []))) = true
  /\ final_profit final !! "HIGHMIA-24OCT15-B86.5" = None
  /\ final_profit final !! "HIGHNY-24OCT15-B56.5" = Some (-405)
  /\ final_profit final !! "HIGHAUS-24OCT15-B96.5" = Some (-194)
  /\ market_calls (trace final)
     = [ "HIGHCHI-24OCT15-B50.5"; "HIGHNY-24OCT15-B58.5"; "HIGHCHI-24OCT15-B48.5";
         "HIGHMIA-24OCT15-B86.5"; "HIGHAUS-24OCT15-B96.5"; "HIGHAUS-24OCT15-B98.5";
         "INX-24OCT15-B5812"; "HIGHMIA-24OCT15-B88.5" ].
Proof.
  intros e final.
  assert (Hpos : positions (mkProfitData (-12) 9333 8600) <> 0) by (simpl; lia).
  split; [exact Hpos|]. split; [exact recorded_pd_NoDup|].
  split; [reflexivity|].
  pose proof (exchange_error_skips_ticker e recorded_start
    (firstn 4 recorded_pd) (skipn 5 recorded_pd)
    "HIGHMIA-24OCT15-B86.5" (mkProfitData (-12) 9333 8600) 0%nat
    Hpos recorded_pd_NoDup eq_refl) as (_ & _ & _ & Hbefore & Hnone & Hcalls & Hlater).
  split; [exact Hnone|].
  split.
  { refine (eq_trans (Hbefore "HIGHNY-24OCT15-B56.5" _) _); [|reflexivity].
    simpl. tauto. }
  split.
  { exact (eq_trans
      (Hlater [] (skipn 6 recorded_pd) "HIGHAUS-24OCT15-B96.5"
         (mkProfitData 20 5894 5700) eq_refl) eq_refl). }
  exact (eq_trans Hcalls eq_refl).
Defined.

Lemma flat_ticker_profit_without_calls_witness :
  let e := table_exchange recorded_markets [] in
  positions (mkProfitData 0 4305 3900) = 0
  /\ NoDup (map fst recorded_pd)
  /\ final_profit (final_profit_cell e recorded_start recorded_pd 0%nat)
       !! "HIGHNY-24OCT15-B56.5" = Some (3900 - 4305)
  /\ ~ In (CallGetMarket "HIGHNY-24OCT15-B56.5")
         (trace (final_profit_cell e recorded_start recorded_pd 0%nat)).
Proof.
  intros e.
  split; [reflexivity|]. split; [exact recorded_pd_NoDup|].
  pose proof (flat_ticker_profit_without_calls e recorded_start
    (firstn 3 recorded_pd) (skipn 4 recorded_pd)
    "HIGHNY-24OCT15-B56.5" (mkProfitData 0 4305 3900) 0%nat
    eq_refl recorded_pd_NoDup) as (_ & _ & _ & Hentry & Hcalls).
  split; [exact Hentry|].
  intros Hin. exact (Hcalls _ Hin eq_refl).
Defined.

Lemma settlement_credit_iff_result_matches_witness :
  let e := table_exchange recorded_markets [] in
  let m := Market.mk "HIGHCHI-24OCT15-B50.5" MarketResult.NO in
  positions (mkProfitData (-7) 5442 5300) <> 0
  /\ NoDup (map fst recorded_pd)
  /\ fst (get_market e "HIGHCHI-24OCT15-B50.5" 0%nat) = Returned m
  /\ settled (Market.result m) = true
  /\ final_profit (final_profit_cell e recorded_start recorded_pd 0%nat)
       !! "HIGHCHI-24OCT15-B50.5" = Some 558
  /\ 558 = 5300 - 5442 + Z.abs (-7) * 100.
Proof.
  intros e m.
  assert (Hpos : positions (mkProfitData (-7) 5442 5300) <> 0) by (simpl; lia).
  split; [exact Hpos|]. split; [exact recorded_pd_NoDup|].
  split; [reflexivity|]. split; [reflexivity|].
  pose proof (settlement_credit_iff_result_matches e recorded_start
    [] (skipn 1 recorded_pd)
    "HIGHCHI-24OCT15-B50.5" (mkProfitData (-7) 5442 5300) 0%nat m
    Hpos recorded_pd_NoDup eq_refl eq_refl) as (_ & Hcredit & _).
  split; [reflexivity|].
  apply (Hcredit 558); [reflexivity|].
  left. simpl. split; [reflexivity|lia].
Defined.

Lemma omitted_exactly_when_skipped_witness :
  let e := table_exchange (firstn 4 recorded_markets) [] in
  positions (mkProfitData (-12) 9333 8600) <> 0
  /\ NoDup (map fst recorded_pd)
  /\ final_profit (final_profit_cell e recorded_start recorded_pd 0%nat)
       !! "HIGHMIA-24OCT15-B86.5" = None.
Proof.
  intros e.
  assert (Hpos : positions (mkProfitData (-12) 9333 8600) <> 0) by (simpl; lia).
  split; [exact Hpos|]. split; [exact recorded_pd_NoDup|].
  pose proof (omitted_exactly_when_skipped e recorded_start
    (firstn 4 recorded_pd) (skipn 5 recorded_pd)
    "HIGHMIA-24OCT15-B86.5" (mkProfitData (-12) 9333 8600) 0%nat
    Hpos recorded_pd_NoDup) as [Hiff _].
  apply Hiff. left. reflexivity.
Defined.


(** ** load_env_vars_from_file *)

Example readme_creds_loaded :
  let '(environ, raised) := load_env_vars_from_file readme_creds ∅ in
  raised = None
  /\ environ !! u"API_URL" = Some (u"https://demo-api.kalshi.co/trade-api")
  /\ environ !! u"API_VERSION" = Some (u"v2")
  /\ environ !! u"API_USERNAME" = Some (u"your-email@email.com")
  /\ environ !! u"API_PASSWORD" = Some (u"some-password").
Proof. vm_compute. repeat split. Qed.

(** [value[1:-1]] removes one character at each end, whatever its code
    point: the typographic quotes of [’v2’] (U+2019) go as a whole. *)
Example slice_1_m1_code_points :
  slice_1_m1 ([8217] ++ u"v2" ++ [8217])%N = u"v2"
  /\ slice_1_m1 (u"'") = [] /\ slice_1_m1 [] = [].
Proof. repeat split. Qed.

Lemma contains_app c (a b : str) :
  contains c (a ++ b) = contains c a || contains c b.
Proof.
  induction a as [|c' a IH]; simpl; [done|].
  by rewrite IH, orb_assoc.
Qed.

Lemma split_no_sep sep s :
  contains sep s = false -> split sep s = [s].
Proof.
  induction s as [|c s IH]; simpl; [done|].
  intros [Hc Hs]%orb_false_elim. by rewrite Hc, IH.
Qed.

Lemma split_app_sep sep a b :
  contains sep a = false ->
  split sep (a ++ sep :: b) = a :: split sep b.
Proof.
  induction a as [|c a IH]; simpl.
  - intros _. by rewrite N.eqb_refl.
  - intros [Hc Ha]%orb_false_elim. by rewrite Hc, IH.
Qed.

Lemma contains_take c n s :
  contains c s = false -> contains c (take n s) = false.
Proof.
  revert n. induction s as [|c' s IH]; intros [|n]; simpl; try done.
  intros [Hc Hs]%orb_false_elim. by rewrite Hc, IH.
Qed.

Lemma contains_drop c n s :
  contains c s = false -> contains c (drop n s) = false.
Proof.
  revert n. induction s as [|c' s IH]; intros [|n]; simpl; try done.
  intros [Hc Hs]%orb_false_elim. by apply IH.
Qed.

Lemma forallb_take {A} (P : A -> bool) n l :
  forallb P l = true -> forallb P (take n l) = true.
Proof.
  revert n. induction l as [|x l IH]; intros [|n]; simpl; try done.
  intros [Hx Hl]%andb_prop. by rewrite Hx, IH.
Qed.

Lemma forallb_drop {A} (P : A -> bool) n l :
  forallb P l = true -> forallb P (drop n l) = true.
Proof.
  revert n. induction l as [|x l IH]; intros [|n]; simpl; try done.
  intros [Hx Hl]%andb_prop. by apply IH.
Qed.

Lemma slice_1_m1_quoted (q1 q2 : N) (value : str) :
  slice_1_m1 (q1 :: value ++ [q2]) = value.
Proof.
  unfold slice_1_m1. simpl. rewrite length_app. simpl.
  replace (length value + 1 - 1)%nat with (length value) by lia.
  rewrite drop_0. apply take_app_length.
Qed.

Lemma load_line_not_export line environ :
  startswith (u"export") line = false -> load_line line environ = Returned environ.
Proof. unfold load_line. by intros ->. Qed.

(** The fields the loop body reads off a line [export NAME=QUOTED] whose
    name and quoted value hold no space and no further [=]. *)
Lemma export_line_fields name quoted :
  contains (ord " ") name = false -> contains (ord "=") name = false ->
  contains (ord " ") quoted = false -> contains (ord "=") quoted = false ->
  split (ord " ") (export_line name quoted) = [u"export"; name ++ u"=" ++ quoted]
  /\ split (ord "=") (name ++ u"=" ++ quoted) = [name; quoted].
Proof.
  intros Hn1 Hn2 Hq1 Hq2. split.
  - change (export_line name quoted)
      with (u"export" ++ ord " " :: (name ++ u"=" ++ quoted)).
    rewrite split_app_sep by reflexivity.
    rewrite split_no_sep; [done|].
    rewrite !contains_app, Hn1, Hq1. reflexivity.
  - change (name ++ u"=" ++ quoted) with (name ++ ord "=" :: quoted).
    rewrite split_app_sep by done. by rewrite split_no_sep.
Qed.

Lemma scalar_encodable (s : str) :
  forallb scalar s = true -> forallb encodable s = true.
Proof.
  induction s as [|c s IH]; simpl; [done|].
  intros [Hc Hs]%andb_prop. rewrite IH by done.
  unfold scalar in Hc. unfold encodable.
  apply andb_prop in Hc as [-> ->]. done.
Qed.

Lemma environ_set_well_formed name quoted environ :
  well_formed name quoted ->
  environ_set name (slice_1_m1 quoted) environ
  = Returned (<[name := slice_1_m1 quoted]> environ).
Proof.
  intros (Hne & _ & _ & Hn2 & _ & Hn0 & Hq0 & Hne' & Hqe).
  unfold environ_set, slice_1_m1.
  rewrite (scalar_encodable name), forallb_take
    by (first [done|by apply forallb_drop, scalar_encodable]).
  rewrite Hn0, contains_take by (by apply contains_drop).
  rewrite Hn2. simpl. by rewrite bool_decide_false.
Qed.

Lemma load_line_export name quoted environ :
  well_formed name quoted ->
  load_line (export_line name quoted) environ
  = Returned (<[name := slice_1_m1 quoted]> environ).
Proof.
  intros Hwf.
  pose proof Hwf as (_ & Hn1 & Hq1 & Hn2 & Hq2 & _).
  destruct (export_line_fields name quoted Hn1 Hn2 Hq1 Hq2) as [Hsp Heq].
  unfold load_line.
  replace (startswith (u"export") (export_line name quoted))
    with true by reflexivity.
  rewrite Hsp.
  change (index [u"export"; name ++ u"=" ++ quoted] 1)
    with (Returned (name ++ u"=" ++ quoted)).
  cbv beta iota. rewrite Heq.
  by apply environ_set_well_formed.
Qed.

Lemma load_env_app before after environ :
  load_env_vars_from_file (before ++ after) environ
  = match load_env_vars_from_file before environ with
    | (environ', None) => load_env_vars_from_file after environ'
    | (environ', Some ex) => (environ', Some ex)
    end.
Proof.
  revert environ. induction before as [|line before IH]; intros environ; simpl.
  - done.
  - destruct (load_line line environ); [apply IH|done].
Qed.

(** The effect of a line does not depend on the environment it meets:
    it is its effect on the empty environment, laid over that one. *)
Lemma load_line_union (line : str) (environ : gmap str str) :
  load_line line environ
  = match load_line line ∅ with
    | Returned vars => Returned (vars ∪ environ)
    | Raised ex => Raised ex
    end.
Proof.
  assert (Hset : forall name value,
    environ_set name value environ
    = match environ_set name value ∅ with
      | Returned vars => Returned (vars ∪ environ)
      | Raised ex => Raised ex
      end).
  { intros name value. unfold environ_set.
    destruct (negb _); [done|].
    destruct (contains 0%N name || contains 0%N value); [done|].
    destruct (contains (ord "=") name); [done|].
    case_bool_decide; [done|].
    by rewrite <- insert_union_l, (left_id_L ∅ (∪)). }
  unfold load_line.
  destruct (startswith (u"export") line); [|by rewrite (left_id_L ∅ (∪))].
  destruct (index (split (ord " ") line) 1) as [field|]; [|done].
  destruct (index (split (ord "=") field) 0) as [var_|]; [|done].
  destruct (index (split (ord "=") field) 1) as [quoted|]; [|done].
  apply Hset.
Qed.

Lemma load_env_union (lines : list str) (environ : gmap str str) :
  load_env_vars_from_file lines environ
  = (fst (load_env_vars_from_file lines ∅) ∪ environ,
     snd (load_env_vars_from_file lines ∅)).
Proof.
  revert environ. induction lines as [|line lines IH]; intros environ; simpl.
  - by rewrite (left_id_L ∅ (∪)).
  - rewrite (load_line_union line environ).
    destruct (load_line line ∅) as [vars|ex]; simpl.
    + rewrite (IH (vars ∪ environ)), (IH vars). simpl.
      by rewrite (assoc_L (∪)).
    + by rewrite (left_id_L ∅ (∪)).
Qed.

(** C6 (as amended). Take a line [export NAME=QUOTED] of the file, with
    one space after [export], a non-empty name, and no space, no further
    [=], no NUL and no surrogate in the name and the quoted value, and
    let the lines before it load without an exception. Then
    the loader, on reaching the line, sets NAME to QUOTED without its
    first and last character, leaves every other variable as the lines
    before left it, and goes on with the lines after; NAME still has
    that value when the loader ends, unless a line after sets NAME
    again. A line that does not start with [export], reached the same
    way, changes no variable. *)
Theorem load_env_sets_variable
    (before after : list str) (name quoted : str)
    (environ environ1 : gmap str str) :
  well_formed name quoted ->
  load_env_vars_from_file before environ = (environ1, None) ->
  let line := export_line name quoted in
  let environ2 := <[name := slice_1_m1 quoted]> environ1 in
  startswith (u"export") line = true
  /\ load_env_vars_from_file (before ++ [line]) environ = (environ2, None)
  /\ load_env_vars_from_file (before ++ line :: after) environ
     = load_env_vars_from_file after environ2
  /\ (fst (load_env_vars_from_file after ∅) !! name = None ->
      fst (load_env_vars_from_file (before ++ line :: after) environ) !! name
      = Some (slice_1_m1 quoted))
  /\ (forall other, startswith (u"export") other = false ->
        load_env_vars_from_file (before ++ [other]) environ = (environ1, None)
        /\ load_env_vars_from_file (before ++ other :: after) environ
           = load_env_vars_from_file after environ1).
Proof.
  intros Hwf Hbefore line environ2.
  assert (Hline : load_line line environ1 = Returned environ2)
    by (by apply load_line_export).
  assert (Hrest : load_env_vars_from_file (before ++ line :: after) environ
                  = load_env_vars_from_file after environ2).
  { rewrite load_env_app, Hbefore. simpl. by rewrite Hline. }
  split; [reflexivity|]. split; [|split; [exact Hrest|split]].
  - rewrite load_env_app, Hbefore. simpl. by rewrite Hline.
  - intros Hafter. rewrite Hrest, load_env_union. simpl.
    rewrite lookup_union, Hafter, (left_id_L None union).
    apply lookup_insert_eq.
  - intros other Hother. rewrite !load_env_app, Hbefore. simpl.
    by rewrite load_line_not_export.
Qed.

Lemma load_env_sets_variable_witness :
  well_formed (u"API_VERSION") (u"'v2'")
  /\ load_env_vars_from_file (firstn 3 readme_creds) ∅
     = ({[ u"API_URL" := u"https://demo-api.kalshi.co/trade-api" ]}, None)
  /\ readme_creds
     = firstn 3 readme_creds
       ++ export_line (u"API_VERSION") (u"'v2'") :: skipn 4 readme_creds
  /\ fst (load_env_vars_from_file readme_creds ∅) !! u"API_VERSION" = Some (u"v2").
Proof.
  assert (Hwf : well_formed (u"API_VERSION") (u"'v2'")).
  { split; [discriminate|]. repeat split. }
  assert (Hbefore : load_env_vars_from_file (firstn 3 readme_creds) ∅
     = ({[ u"API_URL" := u"https://demo-api.kalshi.co/trade-api" ]}, None))
    by reflexivity.
  split; [exact Hwf|]. split; [exact Hbefore|]. split; [reflexivity|].
  pose proof (load_env_sets_variable (firstn 3 readme_creds) (skipn 4 readme_creds)
    (u"API_VERSION") (u"'v2'") ∅ _ Hwf Hbefore) as (_ & _ & _ & Hend & _).
  exact (Hend eq_refl).
Defined.

(** C6 as stated fails in two ways. A value with a space is cut: only
    the second space-separated field of the line is read, so the
    password ['pass word'] is stored as [pas]. And a line that starts
    with [export] but has no space raises IndexError, after which no
    line is read: the variable of a later [export] line is not set. *)
Lemma load_line_value_with_space_cut :
  let line := export_line (u"API_PASSWORD") (u"'pass word'") in
  line = u"export API_PASSWORD='pass word'"
  /\ startswith (u"export") line = true
  /\ slice_1_m1 (u"'pass word'") = u"pass word"
  /\ load_env_vars_from_file [line] ∅ = ({[ u"API_PASSWORD" := u"pas" ]}, None)
  /\ fst (load_env_vars_from_file [line] ∅) !! u"API_PASSWORD"
     <> Some (slice_1_m1 (u"'pass word'"))
  /\ startswith (u"export") (u"exported") = true
  /\ load_env_vars_from_file [u"exported"; export_line (u"API_VERSION") (u"'v2'")] ∅
     = (∅, Some "list index out of range")
  /\ fst (load_env_vars_from_file
            [u"exported"; export_line (u"API_VERSION") (u"'v2'")] ∅)
       !! u"API_VERSION" = None.
Proof.
  repeat split; try reflexivity.
  vm_compute. discriminate.
Qed.

(** ** The records the notebooks read *)

Lemma comprehension_returns {A B} (f : A -> exn_result B) l :
  returns (comprehension f l) <-> Forall (fun x => returns (f x)) l.
Proof.
  induction l as [|x l IH]; simpl.
  - split; [constructor|]. intros _. by eexists.
  - rewrite Forall_cons, <- IH. unfold returns.
    destruct (f x) as [y|ex]; [|split; [intros [? ?]; done|intros [[? ?] _]; done]].
    destruct (comprehension f l) as [ys|ex'].
    + split; [intros _; split; by eexists|intros _; by eexists].
    + split; [intros [? ?]; done|intros [_ [? ?]]; done].
Qed.

Lemma comprehension_ext {A B} (f g : A -> exn_result B) (h : A -> A) l :
  (forall x, g (h x) = f x) ->
  comprehension g (map h l) = comprehension f l.
Proof.
  intros Hfg. induction l as [|x l IH]; simpl; [done|].
  by rewrite Hfg, IH.
Qed.

Lemma getattr_returns (o : gmap string PyValue) name :
  returns (getattr o name) <-> is_Some (o !! name).
Proof.
  unfold returns, getattr. destruct (o !! name) as [v|].
  - split; [intros _; by eexists|intros _; by eexists].
  - split; [intros [? ?]; done|intros [? ?]; done].
Qed.

Lemma trade_columns_returns trades :
  returns (trade_columns trades) <-> Forall trade_readable trades.
Proof.
  unfold trade_columns.
  set (f1 := fun t : gmap string PyValue =>
               match getattr t "created_time" with
               | Raised ex => Raised ex
               | Returned v => timestamp v
               end).
  assert (H1 : forall t, returns (f1 t)
                 <-> exists micros, t !! "created_time" = Some (PyDatetime micros)).
  { intros t. unfold f1, getattr, returns.
    destruct (t !! "created_time") as [[]|]; simpl;
      (split; [intros [? ?]; simplify_eq; eauto|intros [? ?]; simplify_eq; eauto]). }
  assert (Hall : Forall trade_readable trades
    <-> Forall (fun t => returns (f1 t)) trades
        /\ Forall (fun t => returns (getattr t "yes_price")) trades
        /\ Forall (fun t => returns (getattr t "count")) trades
        /\ Forall (fun t => returns (getattr t "taker_side")) trades).
  { rewrite !Forall_forall. unfold trade_readable.
    setoid_rewrite H1. setoid_rewrite getattr_returns.
    split.
    - intros Hall. repeat split; intros t Ht; by destruct (Hall t Ht) as (? & ? & ? & ?).
    - intros (Ha & Hb & Hc & Hd) t Ht. auto. }
  rewrite Hall, <- !comprehension_returns. unfold returns.
  destruct (comprehension f1 trades);
    destruct (comprehension (fun t => getattr t "yes_price") trades);
    destruct (comprehension (fun t => getattr t "count") trades);
    destruct (comprehension (fun t => getattr t "taker_side") trades);
    split; intros H; try (destruct H as (? & ?); done);
    try (destruct H as ([? ?] & [? ?] & [? ?] & [? ?]); done);
    eauto 10.
Qed.


Lemma insert_by_map {A} (key : A -> Z) x l :
  map key (insert_by key x l) = insert_by id (key x) (map key l).
Proof.
  induction l as [|y l IH]; simpl; [done|].
  unfold id at 1. change (id (key y)) with (key y).
  case_match; simpl; by rewrite ?IH.
Qed.

Lemma sort_by_map {A} (key : A -> Z) l :
  map key (sort_by key l) = sort_by id (map key l).
Proof.
  induction l as [|x l IH]; simpl; [done|].
  by rewrite insert_by_map, IH.
Qed.

Lemma had_fills_before_created_time start fi fi' :
  map Fill.created_time fi = map Fill.created_time fi' ->
  had_fills_before start (sort_by Fill.created_time fi)
  = had_fills_before start (sort_by Fill.created_time fi').
Proof.
  intros Heq.
  assert (Hhead : forall l, had_fills_before start l
            = match map Fill.created_time l with
              | [] => false
              | c :: _ => c <? start
              end) by (by intros []).
  by rewrite !Hhead, !sort_by_map, Heq.
Qed.

Lemma fills_body_same_fill st f f' :
  same_fill_for_loop f f' -> fills_body st f = fills_body st f'.
Proof.
  intros (Ht & Hs & Ha & Hy & Hn & Hc & Hk).
  unfold fills_body, process_fill, taker_line, buys_yes.
  by rewrite Ht, Hs, Ha, Hy, Hn, Hc, Hk.
Qed.

Lemma trade_columns_without_side trades :
  trade_columns (delete "side" <$> trades) = trade_columns trades.
Proof.
  unfold trade_columns.
  assert (Hattr : forall name (t : gmap string PyValue), name <> "side" ->
            getattr (delete "side" t) name = getattr t name).
  { intros name t Hne. unfold getattr. by rewrite lookup_delete_ne. }
  change (fmap (delete "side") trades)
    with (map (delete (M:=gmap string PyValue) "side") trades).
  rewrite (comprehension_ext
    (fun t => match getattr t "created_time" with
              | Raised ex => Raised ex
              | Returned v => timestamp v
              end) _ (delete "side") trades)
    by (intros t; by rewrite Hattr).
  rewrite (comprehension_ext (fun t => getattr t "yes_price") _ (delete "side"))
    by (intros t; by rewrite Hattr).
  rewrite (comprehension_ext (fun t => getattr t "count") _ (delete "side"))
    by (intros t; by rewrite Hattr).
  rewrite (comprehension_ext (fun t => getattr t "taker_side") _ (delete "side"))
    by (intros t; by rewrite Hattr).
  done.
Qed.

Lemma plotter_returns {W} (e : ExchangeInterface W) ticker (w : W) :
  returns (fst (plotter e ticker w))
  <-> exists trades, fst (get_trades e ticker w) = Returned trades
        /\ Forall trade_readable trades.
Proof.
  unfold plotter. destruct (get_trades e ticker w) as [[trades|ex] w']; simpl.
  - rewrite trade_columns_returns. split; [by exists trades|].
    by intros (trades' & [= <-] & Hall).
  - split; [by intros [? ?]|by intros (? & ? & _)].
Qed.

(** C5 (as amended). The fills loop reads a fill through ticker, side,
    action, yes_price, no_price, count and is_taker, and the final loop
    reads the fills of a ticker through created_time; the plotter reads a
    trade of [get_trades] through created_time, yes_price, count and
    taker_side: it runs on exactly the trades that carry these four, and
    a [side] attribute of a trade plays no part. *)
Theorem records_read_by_notebooks
    {W : Type} (e : ExchangeInterface W) (ticker : string) (w : W)
    (f f' : Fill.t) (fi fi' : list Fill.t) (start : Z) :
  same_fill_for_loop f f' ->
  map Fill.created_time fi = map Fill.created_time fi' ->
  (forall st, fills_body st f = fills_body st f')
  /\ had_fills_before start (sort_by Fill.created_time fi)
     = had_fills_before start (sort_by Fill.created_time fi')
  /\ (returns (fst (plotter e ticker w))
      <-> exists trades, fst (get_trades e ticker w) = Returned trades
            /\ Forall trade_readable trades)
  /\ (forall trades,
        trade_columns (delete "side" <$> trades) = trade_columns trades).
Proof.
  intros Hsame Htimes. split; [|split; [|split]].
  - intros st. by apply fills_body_same_fill.
  - by apply had_fills_before_created_time.
  - apply plotter_returns.
  - apply trade_columns_without_side.
Qed.

Lemma records_read_by_notebooks_witness :
  let f := Fill.mk "INX-24OCT15-B5812" Side.NO TradeType.BUY 30 70 20 false 1 in
  let f' := Fill.mk "INX-24OCT15-B5812" Side.NO TradeType.BUY 30 70 20 false 2 in
  same_fill_for_loop f f'
  /\ map Fill.created_time [f] = map Fill.created_time [f]
  /\ process_fill f [] = process_fill f' []
  /\ trade_columns [delete "side" sample_trade_with_side]
     = trade_columns [sample_trade_with_side].
Proof.
  intros f f'.
  assert (Hsame : same_fill_for_loop f f') by (repeat split).
  split; [exact Hsame|]. split; [reflexivity|].
  pose proof (records_read_by_notebooks (table_exchange [] [f]) "INX-24OCT15-B5812"
    0%nat f f' [f] [f] recorded_start Hsame eq_refl) as (Hbody & _ & _ & Hside).
  split; [exact (f_equal fst (Hbody ([], [])))|].
  exact (Hside [sample_trade_with_side]).
Defined.

(** C5 as stated fails on its last clause: the plotter consumes trades
    that have no [side] attribute, and a trade that has [side] in place
    of [taker_side] is not consumed. *)
Lemma trade_consumed_without_side :
  let e := table_exchange [] sample_fills in
  (exists trades,
      fst (get_trades e "HIGHNY-24OCT15-B56.5" 0%nat) = Returned trades
      /\ length trades = 3%nat
      /\ Forall (fun t : gmap string PyValue => t !! "side" = None) trades)
  /\ returns (fst (plotter e "HIGHNY-24OCT15-B56.5" 0%nat))
  /\ sample_trade !! "side" = None
  /\ returns (trade_columns [sample_trade])
  /\ is_Some (sample_trade_with_side !! "side")
  /\ trade_columns [sample_trade_with_side]
     = Raised "object has no attribute 'taker_side'".
Proof.
  split.
  { eexists. split; [reflexivity|]. split; [reflexivity|].
    repeat constructor. }
  split; [by eexists|].
  split; [reflexivity|]. split; [by eexists|]. split; [by eexists|reflexivity].
Qed.

(** ** Terraform: the per-source policies *)

Lemma for_each_lookup {A} (s : gset string) (instance : string -> A) key :
  Terraform.for_each s instance !! key
  = if bool_decide (key ∈ s) then Some (instance key) else None.
Proof.
  unfold Terraform.for_each. case_bool_decide as Hin.
  - apply lookup_set_to_map; [naive_solver|]. exists key. done.
  - apply eq_None_not_Some. intros [x Hx].
    apply lookup_set_to_map in Hx as (k & Hk & Heq); [|naive_solver].
    by simplify_eq.
Qed.

Lemma toset_sources k :
  k ∈ Terraform.toset ["cole"; "test"; "databento"]
  <-> k = "cole" \/ k = "test" \/ k = "databento".
Proof.
  unfold Terraform.toset.
  rewrite elem_of_list_to_set, !elem_of_cons, elem_of_nil. tauto.
Qed.

Lemma features_raw_source_rw_keys arn key :
  is_Some (Terraform.features_raw_source_rw arn !! key)
  <-> key = "cole" \/ key = "test" \/ key = "databento".
Proof.
  unfold Terraform.features_raw_source_rw. rewrite for_each_lookup.
  case_bool_decide as Hin; rewrite toset_sources in Hin.
  - split; [done|by eexists].
  - split; [intros [? ?]; done|done].
Qed.

(** C7. The configuration makes one read/write policy per source, for
    the sources cole, test and databento and no other key; the document
    of each has the single statement that allows s3:PutObject,
    s3:GetObject, s3:ListBucket and s3:DeleteObject on the resource
    [<bucket arn>/<source>/*]. *)
Theorem features_raw_source_rw_policies (arn key : string) :
  dom (Terraform.features_raw_source_rw arn) = {["cole"; "test"; "databento"]}
  /\ (is_Some (Terraform.features_raw_source_rw arn !! key)
      <-> key = "cole" \/ key = "test" \/ key = "databento")
  /\ forall p, Terraform.features_raw_source_rw arn !! key = Some p ->
       Terraform.name p = "features_raw_prod_" +:+ key +:+ "_rw"
       /\ Terraform.Statement (Terraform.policy p)
          = [ Terraform.mkStatement
                ["s3:PutObject"; "s3:GetObject"; "s3:ListBucket"; "s3:DeleteObject"]
                "Allow"
                (arn +:+ "/" +:+ key +:+ "/*") ].
Proof.
  split; [|split; [apply features_raw_source_rw_keys|]].
  - apply set_eq. intros k.
    rewrite elem_of_dom, features_raw_source_rw_keys.
    rewrite !elem_of_union, !elem_of_singleton. tauto.
  - intros p. unfold Terraform.features_raw_source_rw.
    rewrite for_each_lookup. case_bool_decide; [|done].
    intros [= <-]. done.
Qed.

Lemma features_raw_source_rw_policies_witness :
  let arn := "arn:aws:s3:::" +:+ Terraform.features_raw_bucket in
  Terraform.Resource
    <$> (Terraform.features_raw_source_rw arn !! "databento"
           ≫= fun p => head (Terraform.Statement (Terraform.policy p)))
  = Some "arn:aws:s3:::dead-gecco-prod-features-raw/databento/*".
Proof.
  intros arn.
  destruct (features_raw_source_rw_policies arn "databento") as (_ & Hsome & Hdoc).
  destruct (proj2 Hsome) as [p Hp]; [tauto|].
  rewrite Hp. simpl. destruct (Hdoc p Hp) as [_ ->]. reflexivity.
Defined.


(** ** The cleaning cell *)

Example float64_of_int_rounds :
  float64_of_int (1694698200 * 10 ^ 9 - 100) = 1694698200 * 10 ^ 9
  /\ float64_of_int (1694698200 * 10 ^ 9) = 1694698200 * 10 ^ 9
  /\ float64_of_int (2 ^ 53 + 1) = 2 ^ 53
  /\ float64_of_int (2 ^ 53 + 3) = 2 ^ 53 + 4
  /\ float64_of_int (- (2 ^ 53 + 3)) = - (2 ^ 53 + 4).
Proof. repeat split. Qed.

(** Every row of [df4] is a row of the dump, under its own index label,
    whose action is "T" and whose [ts_recv], as a float64, lies between
    the two bounds the cell computed, both ends included. *)
Lemma clean_cell_rows clock csv df4 :
  clean_cell clock csv = Returned df4 ->
  exists first, csv !! 0%nat = Some first
    /\ forall i ts price, (i, (ts, price)) ∈ df4 ->
         exists row, csv !! i = Some row
           /\ ts = Row.ts_recv row /\ price = Row.price row
           /\ Row.action row = "T"
           /\ market_open_full_datetime_ns clock (day_of_data clock (Row.ts_recv first))
              <= float64_of_int ts
              <= market_close_full_datetime_ns clock (day_of_data clock (Row.ts_recv first)).
Proof.
  unfold clean_cell. destruct csv as [|first rest]; [done|].
  change (imap pair (first :: rest))
    with ((0%nat, first) :: imap (pair ∘ S) rest).
  cbv zeta. intros Hret. exists first. split; [done|].
  intros i ts price Hin.
  assert (Hdf4 : forall a b : list (nat * (Z * Z)),
            Returned a = Returned b -> a = b) by congruence.
  apply Hdf4 in Hret. rewrite <- Hret in Hin. clear Hret Hdf4.
  apply list_elem_of_filter in Hin as (_ & Hin).
  apply list_elem_of_fmap in Hin as ([j row] & [= -> -> ->] & Hin).
  apply list_elem_of_filter in Hin as (Haction & Hin).
  apply list_elem_of_filter in Hin as (Hwindow & Hin).
  exists row. simpl in *. repeat split; try done; try tauto.
  change ((0%nat, first) :: imap (pair ∘ S) rest)
    with (imap pair (first :: rest)) in Hin.
  apply elem_of_lookup_imap in Hin as (k & x & [= -> ->] & Hk). done.
Qed.

(** On a system clock set to US/Eastern the two bounds are 9:30 and
    16:00 Eastern. *)
Lemma eastern_clock_bounds clock date :
  system_utcoffset clock = eastern_utcoffset clock ->
  market_open_full_datetime_ns clock date
  = float64_of_int (eastern_time_ns clock date 9 30)
  /\ market_close_full_datetime_ns clock date
     = float64_of_int (eastern_time_ns clock date 16 0).
Proof.
  intros Heq. unfold market_open_full_datetime_ns, market_close_full_datetime_ns,
    combine_timestamp, eastern_time_ns. by rewrite Heq.
Qed.

(** C4. On a system clock set to UTC the cell keeps the trade of 12:30
    UTC, which is 8:30 US/Eastern and so before the Eastern open, and
    drops the trades from 19:00 UTC on, which is 15:00 US/Eastern: the
    window is 9:30 to 16:00 of the system zone. On a system clock set to
    US/Eastern the same dump leaves the trade of 15:15 Eastern. *)
Theorem clean_cell_window_of_system_zone :
  let date := day_of_data utc_clock (sep14_utc 12 0) in
  clean_cell utc_clock sample_csv = Returned [(1%nat, (sep14_utc 12 30, 200))]
  /\ sep14_utc 12 30 < eastern_time_ns utc_clock date 9 30
  /\ sample_csv !! 4%nat = Some (Row.mk (sep14_utc 19 15) 200 "T")
  /\ eastern_time_ns utc_clock date 9 30 <= sep14_utc 19 15
     <= eastern_time_ns utc_clock date 16 0
  /\ market_open_full_datetime_ns utc_clock date = sep14_utc 9 30
  /\ market_close_full_datetime_ns utc_clock date = sep14_utc 16 0
  /\ clean_cell eastern_clock sample_csv
     = Returned [(4%nat, (sep14_utc 19 15, 200))].
Proof.
  split; [vm_compute; reflexivity|].
  split; [vm_compute; reflexivity|]. split; [reflexivity|].
  split; [split; apply Z.leb_le; vm_compute; reflexivity|].
  repeat split; vm_compute; reflexivity.
Qed.

(** ** The notebook on the sample fills *)

Example notebook_on_sample_fills :
  match notebook (table_exchange recorded_markets sample_fills) 0 0%nat with
  | Returned st =>
      final_profit st !! "HIGHNY-24OCT15-B56.5" = Some 0
      /\ world st = 1%nat
      /\ trace st
         = [ CallGetFills (fills_since recorded_start);
             Print "taker fill:  HIGHNY-24OCT15-B56.5" ]
  | Raised _ => False
  end.
Proof. vm_compute. repeat split. Qed.

(** * Further properties of the notebooks *)

(** ** What the fills loop accumulates *)

Lemma fills_loop_cons fill fills st :
  fills_loop (fill :: fills) st = fills_loop fills (fills_body st fill).
Proof. reflexivity. Qed.

Lemma fills_loop_positions_spent fills st t :
  positions (dd_get t (fst (fills_loop fills st)))
  = positions (dd_get t (fst st)) + ticker_sum signed_count t fills
  /\ spent (dd_get t (fst (fills_loop fills st)))
     = spent (dd_get t (fst st)) + ticker_sum paid t fills.
Proof.
  revert st. induction fills as [|fill fills IH]; intros st; simpl ticker_sum.
  - unfold fills_loop. simpl. lia.
  - rewrite fills_loop_cons.
    destruct (IH (fills_body st fill)) as [-> ->]. simpl fst.
    case_bool_decide as Ht.
    + subst t. rewrite process_fill_own, fill_effect_positions, fill_effect_spent.
      unfold signed_count, paid. lia.
    + rewrite process_fill_other by done. lia.
Qed.

Lemma fill_effect_made_balance fill d :
  0 <= Fill.count fill ->
  2 * made (fill_effect fill d) + 100 * Z.abs (positions (fill_effect fill d))
  = 2 * made d + 100 * Z.abs (positions d) + 100 * Fill.count fill.
Proof.
  intros Hc. rewrite fill_effect_made, fill_effect_positions.
  unfold offsets. destruct (buys_yes fill); case_match; lia.
Qed.

Lemma fills_loop_made_balance fills st t :
  Forall (fun fill => 0 <= Fill.count fill) fills ->
  let d0 := dd_get t (fst st) in
  let d := dd_get t (fst (fills_loop fills st)) in
  2 * made d + 100 * Z.abs (positions d)
  = 2 * made d0 + 100 * Z.abs (positions d0)
    + 100 * ticker_sum Fill.count t fills.
Proof.
  intros Hall. revert st.
  induction Hall as [|fill fills Hc Hall IH]; intros st; simpl ticker_sum.
  - unfold fills_loop. simpl. lia.
  - rewrite fills_loop_cons. cbv zeta in *. rewrite IH. simpl fst.
    case_bool_decide as Ht.
    + subst t. rewrite process_fill_own.
      rewrite (fill_effect_made_balance fill _ Hc). lia.
    + rewrite process_fill_other by done. lia.
Qed.

(** The record of a ticker after the loop has run from the empty
    dictionary. *)
Lemma fills_loop_from_empty fills t :
  let d := dd_get t (fst (fills_loop fills ([], []))) in
  positions d = ticker_sum signed_count t fills
  /\ spent d = ticker_sum paid t fills
  /\ (Forall (fun fill => 0 <= Fill.count fill) fills ->
      2 * made d = 100 * (ticker_sum Fill.count t fills - Z.abs (positions d))).
Proof.
  intros d. unfold d.
  destruct (fills_loop_positions_spent fills ([], []) t) as [Hp Hs].
  change (dd_get t (fst ([] : defaultdict, [] : list string)))
    with ProfitData_init in Hp, Hs. simpl in Hp, Hs.
  split; [lia|]. split; [lia|]. intros Hall.
  pose proof (fills_loop_made_balance fills ([], []) t Hall) as Hbal.
  cbv zeta in Hbal.
  change (dd_get t (fst ([] : defaultdict, [] : list string)))
    with ProfitData_init in Hbal.
  simpl in Hbal. lia.
Qed.

(** X1. Whatever the order of the fills, the loop leaves for every
    ticker the net position equal to the sum of the signed counts of its
    fills ([+count] for buy-yes and sell-no, [-count] otherwise) and
    [spent] equal to the sum of price times count over its fills. *)
Theorem fills_loop_net_position_and_spent (fills : list Fill.t) (t : string) :
  let pd := fst (fills_loop fills ([], [])) in
  positions (dd_get t pd) = ticker_sum signed_count t fills
  /\ spent (dd_get t pd) = ticker_sum paid t fills.
Proof.
  intros pd. destruct (fills_loop_from_empty fills t) as (Hp & Hs & _).
  by split.
Qed.

(** X2. With non-negative counts, [made] is fifty times the contracts
    of the ticker that were closed out: twice [made] plus a hundred times
    the size of the net position is a hundred times the number of
    contracts filled for the ticker. *)
Theorem fills_loop_made_closed_form (fills : list Fill.t) (t : string) :
  Forall (fun fill => 0 <= Fill.count fill) fills ->
  let d := dd_get t (fst (fills_loop fills ([], []))) in
  2 * made d = 100 * (ticker_sum Fill.count t fills - Z.abs (positions d)).
Proof.
  intros Hall d. destruct (fills_loop_from_empty fills t) as (_ & _ & Hm).
  by apply Hm.
Qed.

Lemma fills_loop_made_closed_form_witness :
  Forall (fun fill => 0 <= Fill.count fill) sample_fills
  /\ ticker_sum Fill.count "HIGHNY-24OCT15-B56.5" sample_fills = 20
  /\ 2 * made (dd_get "HIGHNY-24OCT15-B56.5" (fst (fills_loop sample_fills ([], []))))
     = 100 * (20 - Z.abs 0).
Proof.
  assert (Hall : Forall (fun fill => 0 <= Fill.count fill) sample_fills)
    by (repeat constructor; simpl; lia).
  split; [exact Hall|]. split; [reflexivity|].
  exact (fills_loop_made_closed_form sample_fills "HIGHNY-24OCT15-B56.5" Hall).
Defined.

Lemma ticker_sum_Permutation g t fills fills' :
  fills ≡ₚ fills' -> ticker_sum g t fills = ticker_sum g t fills'.
Proof.
  induction 1; simpl; repeat case_bool_decide; lia.
Qed.

(** X3. With non-negative counts the record of every ticker depends on
    the set of fills only, not on their order: any rearrangement of the
    fills, the sort by [created_time] among them, gives the same
    [positions], [spent] and [made]. *)
Theorem fills_loop_order_irrelevant (fills fills' : list Fill.t) (t : string) :
  Forall (fun fill => 0 <= Fill.count fill) fills ->
  fills ≡ₚ fills' ->
  dd_get t (fst (fills_loop fills' ([], []))) = dd_get t (fst (fills_loop fills ([], [])))
  /\ dd_get t (pd_after fills) = dd_get t (fst (fills_loop fills ([], []))).
Proof.
  intros Hall.
  assert (Hperm : forall l, fills ≡ₚ l ->
    dd_get t (fst (fills_loop l ([], []))) = dd_get t (fst (fills_loop fills ([], [])))).
  { intros l Hl.
    assert (Hall' : Forall (fun fill => 0 <= Fill.count fill) l)
      by (by rewrite <- Hl).
    pose proof (fills_loop_from_empty fills t) as (Hp & Hs & Hm).
    pose proof (fills_loop_from_empty l t) as (Hp' & Hs' & Hm').
    cbv zeta in *. specialize (Hm Hall). specialize (Hm' Hall').
    rewrite (ticker_sum_Permutation _ _ _ _ Hl) in Hp.
    rewrite (ticker_sum_Permutation _ _ _ _ Hl) in Hs.
    rewrite (ticker_sum_Permutation _ _ _ _ Hl) in Hm.
    destruct (dd_get t (fst (fills_loop l ([], [])))) as [p' s' m'].
    destruct (dd_get t (fst (fills_loop fills ([], [])))) as [p s m].
    simpl in *. f_equal; lia. }
  intros Hl. split; [by apply Hperm|].
  unfold pd_after. apply Hperm. by rewrite sort_by_Permutation.
Qed.

Lemma fills_loop_order_irrelevant_witness :
  Forall (fun fill => 0 <= Fill.count fill) sample_fills
  /\ sample_fills ≡ₚ rev sample_fills
  /\ dd_get "HIGHNY-24OCT15-B56.5" (fst (fills_loop (rev sample_fills) ([], [])))
     = mkProfitData 0 1000 1000.
Proof.
  assert (Hall : Forall (fun fill => 0 <= Fill.count fill) sample_fills)
    by (repeat constructor; simpl; lia).
  assert (Hperm : sample_fills ≡ₚ rev sample_fills)
    by apply Permutation_rev.
  split; [exact Hall|]. split; [exact Hperm|].
  exact (eq_trans
    (proj1 (fills_loop_order_irrelevant sample_fills (rev sample_fills)
              "HIGHNY-24OCT15-B56.5" Hall Hperm))
    eq_refl).
Defined.

(** ** The keys of [pd] *)

Lemma dd_find_is_Some t pd : is_Some (dd_find t pd) <-> In t (map fst pd).
Proof.
  induction pd as [|[k d] pd IH]; simpl.
  - split; [by intros [? ?]|done].
  - case_bool_decide; [|rewrite IH; tauto]. split; [by left|by eexists].
Qed.

Lemma dd_update_keys t f pd t' :
  In t' (map fst (dd_update t f pd)) <-> In t' (map fst pd) \/ t' = t.
Proof.
  unfold dd_update. destruct (dd_find t pd) eqn:Hf.
  - rewrite dd_alter_keys. split; [by left|]. intros [?| ->]; [done|].
    apply dd_find_is_Some. by eexists.
  - rewrite map_app, in_app_iff. simpl. intuition congruence.
Qed.

Lemma process_fill_keys fill pd t :
  In t (map fst (process_fill fill pd))
  <-> In t (map fst pd) \/ t = Fill.ticker fill.
Proof.
  unfold process_fill.
  repeat case_match; rewrite ?dd_update_keys; tauto.
Qed.

Lemma fills_loop_keys fills st t :
  In t (map fst (fst (fills_loop fills st)))
  <-> In t (map fst (fst st)) \/ exists fill, In fill fills /\ Fill.ticker fill = t.
Proof.
  revert st. induction fills as [|fill fills IH]; intros st.
  - unfold fills_loop. simpl. split; [by left|]. by intros [?|(? & [] & _)].
  - rewrite fills_loop_cons, IH. simpl fst. rewrite process_fill_keys. split.
    + intros [[?| ->]|(f & Hf & Ht)]; [by left| |].
      * right. exists fill. split; [by left|done].
      * right. exists f. split; [by right|done].
    + intros [?|(f & [<-|Hf] & Ht)]; [by left; left| |].
      * left. by right.
      * right. by exists f.
Qed.

(** X4. After the fills loop [pd] holds exactly one record per ticker
    that has a fill: a ticker is a key exactly when some fill carries it,
    and no key occurs twice. *)
Theorem pd_keys_are_the_tickers_filled (fills : list Fill.t) (t : string) :
  (is_Some (dd_find t (pd_after fills))
   <-> exists fill, In fill fills /\ Fill.ticker fill = t)
  /\ NoDup (map fst (pd_after fills)).
Proof.
  split; [|apply pd_after_NoDup].
  rewrite dd_find_is_Some. unfold pd_after. rewrite fills_loop_keys.
  split.
  - intros [[]|(f & Hf & Ht)].
    exists f. split; [by apply (sort_by_In Fill.created_time)|done].
  - intros (f & Hf & Ht). right.
    exists f. split; [by apply sort_by_In|done].
Qed.

(** ** What the final_profit loop records and asks *)

Section FinalProfitMore.

Context {W : Type} (e : ExchangeInterface W) (start : Z).

Local Abbreviation body := (final_profit_body e start).
Local Abbreviation loop := (final_profit_loop e start).
Local Abbreviation cell := (final_profit_cell e start).

Lemma body_entry (st : LoopState W) ticker d t v :
  final_profit (body st (ticker, d)) !! t = Some v ->
  final_profit st !! t = Some v \/ (t = ticker /\ profit_of d v).
Proof.
  unfold final_profit_body, profit_of.
  repeat case_match; simpl; try (by left);
    (destruct (decide (ticker = t)) as [->|Hne];
     [rewrite lookup_insert_eq; intros [= <-]; right|
      rewrite lookup_insert_ne by done; by left]);
    repeat match goal with
           | H : bool_decide _ = _ |- _ =>
               first [apply bool_decide_eq_true in H|apply bool_decide_eq_false in H]
           | H : (_ <? _) = true |- _ => apply Z.ltb_lt in H
           | H : (_ <? _) = false |- _ => apply Z.ltb_ge in H
           end;
    (split; [done|]); lia.
Qed.

Lemma loop_entry items (st : LoopState W) t v :
  final_profit (loop items st) !! t = Some v ->
  final_profit st !! t = Some v \/ exists d, In (t, d) items /\ profit_of d v.
Proof.
  revert st. induction items as [|[k d] items IH]; intros st Hv; [by left|].
  simpl in Hv. apply IH in Hv as [Hv|(d' & Hd' & Hp)].
  - apply body_entry in Hv as [?|[-> Hp]]; [by left|].
    right. exists d. split; [by left|done].
  - right. exists d'. split; [by right|done].
Qed.

(** X5. Every entry of [final_profit] belongs to a ticker of [pd], and
    its value is either [made - spent] or that plus [|positions| * 100];
    for a flat ticker it is [made - spent]. The loop records nothing
    else. *)
Theorem final_profit_entries_bounded
    (pd : defaultdict) (w : W) (t : string) (v : Z) :
  final_profit (cell pd w) !! t = Some v ->
  exists d, In (t, d) pd
    /\ made d - spent d <= v <= made d - spent d + Z.abs (positions d) * 100
    /\ (v = made d - spent d \/ v = made d - spent d + Z.abs (positions d) * 100)
    /\ (positions d = 0 -> v = made d - spent d).
Proof.
  intros Hv. apply loop_entry in Hv as [Hv|(d & Hd & Hp)]; [done|].
  by exists d.
Qed.

Lemma body_fills_calls (st : LoopState W) ticker d :
  exists asked,
    fills_calls (trace (body st (ticker, d))) = fills_calls (trace st) ++ asked
    /\ (asked = [] \/ (asked = [fills_of_ticker ticker] /\ positions d <> 0
                       /\ exists m, fst (get_market e ticker (world st)) = Returned m)).
Proof.
  unfold final_profit_body, fills_calls.
  case_bool_decide as Hz; [|exists []; split; [by rewrite app_nil_r|by left]].
  destruct (get_market e ticker (world st)) as [[m|ex] w1] eqn:Hm; simpl.
  - exists [fills_of_ticker ticker]. split.
    + repeat case_match; simpl; rewrite <- ?app_assoc, ?omap_app; done.
    + right. split; [done|]. split; [done|]. by exists m.
  - exists []. split; [|by left]. by rewrite omap_app.
Qed.

Lemma loop_fills_calls items (st : LoopState W) :
  exists asked,
    fills_calls (trace (loop items st)) = fills_calls (trace st) ++ asked
    /\ asked `sublist_of` map fills_of_ticker (open_tickers items).
Proof.
  revert st. induction items as [|[k d] items IH]; intros st.
  - exists []. simpl. by rewrite app_nil_r.
  - rewrite loop_cons.
    destruct (IH (body st (k, d))) as (asked & -> & Hsub).
    destruct (body_fills_calls st k d) as (asked0 & -> & Hasked0).
    exists (asked0 ++ asked). split; [by rewrite app_assoc|].
    unfold open_tickers in *. simpl.
    destruct Hasked0 as [->|(-> & Hpos & _)].
    + simpl. destruct (negb (positions d =? 0)); simpl; [by constructor|done].
    + apply Z.eqb_neq in Hpos. rewrite Hpos. simpl. by constructor.
Qed.

(** X6. The loop calls [get_market] once for every ticker of [pd] with
    a net position, in the order of [pd.items()], and for no other
    ticker; [get_fills] is called only with requests for such tickers, in
    the same order, each at most once. *)
Theorem final_profit_loop_exchange_calls (pd : defaultdict) (w : W) :
  market_calls (trace (cell pd w)) = open_tickers pd
  /\ fills_calls (trace (cell pd w))
     `sublist_of` map fills_of_ticker (open_tickers pd).
Proof.
  unfold final_profit_cell. split.
  - by rewrite loop_market_calls.
  - destruct (loop_fills_calls pd (mkLoopState ∅ w [])) as (asked & -> & Hsub).
    done.
Qed.

End FinalProfitMore.

Lemma final_profit_entries_bounded_witness :
  let e := table_exchange recorded_markets [] in
  final_profit (final_profit_cell e recorded_start recorded_pd 0%nat)
    !! "HIGHAUS-24OCT15-B96.5" = Some (-194)
  /\ exists d, In ("HIGHAUS-24OCT15-B96.5", d) recorded_pd
       /\ made d - spent d <= -194.
Proof.
  intros e.
  assert (Hv : final_profit (final_profit_cell e recorded_start recorded_pd 0%nat)
                 !! "HIGHAUS-24OCT15-B96.5" = Some (-194)) by reflexivity.
  split; [exact Hv|].
  destruct (final_profit_entries_bounded e recorded_start recorded_pd 0%nat
              "HIGHAUS-24OCT15-B96.5" (-194) Hv) as (d & Hd & [Hlo _] & _).
  exists d. split; [exact Hd|exact Hlo].
Defined.

(** ** The notebook from the first call to the last loop *)

Lemma dd_find_In t d pd : dd_find t pd = Some d -> In (t, d) pd.
Proof.
  induction pd as [|[k x] pd IH]; simpl; [done|].
  case_bool_decide; [intros [= ->]; subst; by left|auto].
Qed.

Lemma loop_flat_entry {W} (e : ExchangeInterface W) start pd t d (st : LoopState W) :
  NoDup (map fst pd) -> In (t, d) pd -> positions d = 0 ->
  final_profit (final_profit_loop e start pd st) !! t = Some (made d - spent d).
Proof.
  intros Hnd Hin Hz. apply in_split in Hin as (before & after & ->).
  apply NoDup_keys_split in Hnd as (_ & Ha & _).
  rewrite loop_app. simpl. rewrite loop_other by done.
  unfold final_profit_body. rewrite bool_decide_false by (intros Hn; by apply Hn).
  simpl. apply lookup_insert_eq.
Qed.

(** X7. When the first [get_fills] returns fills with non-negative
    counts, every ticker that has fills and whose signed counts sum to
    zero ends with the profit fifty times its contracts minus what was
    paid for them, whatever the exchange answers later and whatever the
    order of the fills. *)
Theorem notebook_flat_ticker_profit
    {W : Type} (e : ExchangeInterface W) (system_utcoffset : Z) (w w1 : W)
    (fills : list Fill.t) (t : string) :
  get_fills e (fills_since (start_datetime system_utcoffset)) w = (Returned fills, w1) ->
  Forall (fun fill => 0 <= Fill.count fill) fills ->
  (exists fill, In fill fills /\ Fill.ticker fill = t) ->
  ticker_sum signed_count t fills = 0 ->
  exists st, notebook e system_utcoffset w = Returned st
    /\ final_profit st !! t
       = Some (50 * ticker_sum Fill.count t fills - ticker_sum paid t fills).
Proof.
  intros Hget Hall Hfill Hflat. unfold notebook. rewrite Hget.
  set (sorted := sort_by Fill.created_time fills).
  assert (Hperm : sorted ≡ₚ fills) by apply sort_by_Permutation.
  assert (Hall' : Forall (fun fill => 0 <= Fill.count fill) sorted)
    by (by rewrite Hperm).
  pose proof (fills_loop_from_empty sorted t) as (Hp & Hs & Hm).
  cbv zeta in Hp, Hs, Hm. specialize (Hm Hall').
  rewrite (ticker_sum_Permutation _ _ _ _ Hperm) in Hp.
  rewrite (ticker_sum_Permutation _ _ _ _ Hperm) in Hs.
  rewrite (ticker_sum_Permutation _ _ _ _ Hperm) in Hm.
  assert (Hkey : is_Some (dd_find t (fst (fills_loop sorted ([], []))))).
  { apply dd_find_is_Some, fills_loop_keys. right.
    destruct Hfill as (f & Hf & Ht). exists f.
    split; [by apply (sort_by_In Fill.created_time)|done]. }
  assert (Hnd : NoDup (map fst (fst (fills_loop sorted ([], [])))))
    by apply pd_after_NoDup.
  destruct (fills_loop sorted ([], [])) as [pd printed]. simpl in *.
  eexists. split; [reflexivity|].
  destruct Hkey as [d Hd].
  assert (Hget_d : dd_get t pd = d) by (unfold dd_get; by rewrite Hd).
  rewrite Hget_d in Hp, Hs, Hm.
  rewrite (loop_flat_entry e _ pd t d); [f_equal; lia|done| |lia].
  by apply dd_find_In.
Qed.

Lemma notebook_flat_ticker_profit_witness :
  let e := table_exchange recorded_markets sample_fills in
  get_fills e (fills_since (start_datetime 0)) 0%nat = (Returned sample_fills, 1%nat)
  /\ Forall (fun fill => 0 <= Fill.count fill) sample_fills
  /\ ticker_sum signed_count "HIGHNY-24OCT15-B56.5" sample_fills = 0
  /\ exists st, notebook e 0 0%nat = Returned st
       /\ final_profit st !! "HIGHNY-24OCT15-B56.5" = Some (50 * 20 - 1000).
Proof.
  intros e.
  assert (Hget : get_fills e (fills_since (start_datetime 0)) 0%nat
                 = (Returned sample_fills, 1%nat)) by reflexivity.
  assert (Hall : Forall (fun fill => 0 <= Fill.count fill) sample_fills)
    by (repeat constructor; simpl; lia).
  split; [exact Hget|]. split; [exact Hall|]. split; [reflexivity|].
  refine (notebook_flat_ticker_profit e 0 0%nat 1%nat sample_fills
            "HIGHNY-24OCT15-B56.5" Hget Hall _ eq_refl).
  eexists. split; [left; reflexivity|reflexivity].
Defined.

(** ** The ranking and the total *)

Lemma sum_values_Permutation items items' :
  items ≡ₚ items' -> sum_values items = sum_values items'.
Proof. induction 1; simpl; lia. Qed.

(** X8. The ranking lists every entry of [final_profit] exactly once,
    in non-decreasing profit, entries of equal profit in the order of the
    dictionary: its first element is a worst performer, and the total of
    the profits is the same over the ranking as over the dictionary. *)
Theorem sorted_by_profit_ranks_all_entries (items : list (string * Z)) :
  sorted_by_profit items ≡ₚ items
  /\ StronglySorted (fun a b => snd a <= snd b) (sorted_by_profit items)
  /\ (forall worst rest item, sorted_by_profit items = worst :: rest ->
        In item items -> snd worst <= snd item)
  /\ (forall profit,
        filter (fun item => snd item = profit) (sorted_by_profit items)
        = filter (fun item => snd item = profit) items)
  /\ sum_values (sorted_by_profit items) = sum_values items.
Proof.
  unfold sorted_by_profit. split; [apply sort_by_Permutation|].
  split; [apply (sort_by_sorted snd)|].
  split; [intros worst rest item Hs Hin; by eapply sort_by_head_least|].
  split; [intros profit; apply (sort_by_stable snd)|].
  apply sum_values_Permutation, sort_by_Permutation.
Qed.

Lemma sorted_by_profit_ranks_all_entries_witness :
  sorted_by_profit recorded_final_profit
  = [ ("INX-24OCT15-B5812", -1540); ("HIGHMIA-24OCT15-B86.5", -733);
      ("HIGHMIA-24OCT15-B88.5", -640); ("HIGHNY-24OCT15-B56.5", -405);
      ("HIGHCHI-24OCT15-B48.5", -382); ("HIGHAUS-24OCT15-B96.5", -194);
      ("HIGHAUS-24OCT15-B98.5", 390); ("HIGHCHI-24OCT15-B50.5", 558);
      ("HIGHNY-24OCT15-B58.5", 852) ]
  /\ sum_values (sorted_by_profit recorded_final_profit) = -2094.
Proof.
  split; [reflexivity|].
  exact (eq_trans
    (proj2 (proj2 (proj2 (proj2
       (sorted_by_profit_ranks_all_entries recorded_final_profit)))))
    eq_refl).
Defined.

(** ** More on load_env_vars_from_file *)

(** X9. A value written between two quote characters comes back as it
    was written: the line [export NAME=<q1>VALUE<q2>], where [q1] and
    [q2] are single characters of any code point, with a non-empty name
    and no space, [=], NUL or surrogate in the name, the value and the
    two characters, sets NAME to VALUE. *)
Theorem load_line_quoted_value
    (name value : str) (q1 q2 : N) (environ : gmap str str) :
  well_formed name (q1 :: value ++ [q2]) ->
  load_line (export_line name (q1 :: value ++ [q2])) environ
  = Returned (<[name := value]> environ).
Proof.
  intros Hwf. rewrite load_line_export by done. by rewrite slice_1_m1_quoted.
Qed.

Lemma load_line_quoted_value_witness :
  well_formed (u"API_VERSION") (8216 :: u"v2" ++ [8217])%N
  /\ load_line (u"export API_VERSION=" ++ [8216] ++ u"v2" ++ [8217])%N ∅
     = Returned {[ u"API_VERSION" := u"v2" ]}.
Proof.
  assert (Hwf : well_formed (u"API_VERSION") (8216 :: u"v2" ++ [8217])%N).
  { split; [discriminate|]. repeat split. }
  split; [exact Hwf|].
  exact (load_line_quoted_value (u"API_VERSION") (u"v2") 8216%N 8217%N ∅ Hwf).
Defined.

(** X19. An [=] inside the value cuts it short: of the line
    [export NAME=HEAD=REST], with a non-empty name, no space, [=], NUL
    or surrogate in NAME and HEAD, and no space in REST, only HEAD is
    read, and NAME is set to HEAD without its first and last character,
    whatever else REST holds. *)
Theorem load_line_value_cut_at_equals
    (name head rest : str) (environ : gmap str str) :
  well_formed name head ->
  contains (ord " ") rest = false ->
  load_line (export_line name (head ++ u"=" ++ rest)) environ
  = Returned (<[name := slice_1_m1 head]> environ).
Proof.
  intros Hwf Hr1.
  pose proof Hwf as (_ & Hn1 & Hh1 & Hn2 & Hh2 & _).
  unfold load_line.
  replace (startswith (u"export") (export_line name (head ++ u"=" ++ rest)))
    with true by reflexivity.
  change (export_line name (head ++ u"=" ++ rest))
    with (u"export" ++ ord " " :: (name ++ ord "=" :: (head ++ ord "=" :: rest))).
  rewrite split_app_sep by reflexivity.
  assert (Hc : contains (ord " ") (name ++ ord "=" :: (head ++ ord "=" :: rest))
               = false).
  { change (ord "=" :: (head ++ ord "=" :: rest))
      with ([ord "="] ++ head ++ [ord "="] ++ rest).
    rewrite !contains_app, Hn1, Hh1, Hr1. reflexivity. }
  rewrite (split_no_sep (ord " ")) by exact Hc.
  change (index [u"export"; name ++ ord "=" :: (head ++ ord "=" :: rest)] 1)
    with (Returned (name ++ ord "=" :: (head ++ ord "=" :: rest))).
  cbv beta iota.
  rewrite split_app_sep by done. rewrite split_app_sep by done.
  destruct (split (ord "=") rest);
    change (index (name :: head :: ?l) 0) with (Returned name);
    by apply environ_set_well_formed.
Qed.

Lemma load_line_value_cut_at_equals_witness :
  well_formed (u"API_URL") (u"'https://x.co/api?key")
  /\ contains (ord " ") (u"abc'") = false
  /\ load_line (u"export API_URL='https://x.co/api?key=abc'") ∅
     = Returned {[ u"API_URL" := u"https://x.co/api?ke" ]}.
Proof.
  assert (Hwf : well_formed (u"API_URL") (u"'https://x.co/api?key")).
  { split; [discriminate|]. repeat split. }
  split; [exact Hwf|]. split; [reflexivity|].
  exact (load_line_value_cut_at_equals (u"API_URL") (u"'https://x.co/api?key")
           (u"abc'") ∅ Hwf eq_refl).
Defined.

Lemma load_line_no_space line environ :
  startswith (u"export") line = true -> contains (ord " ") line = false ->
  load_line line environ = Raised "list index out of range".
Proof.
  intros Hs Hc. unfold load_line. rewrite Hs, split_no_sep by done. done.
Qed.

(** X10. An [export] line without a space stops the load with
    IndexError: the variables of the lines before it stay set, and no
    line after it is read. *)
Theorem load_env_stops_at_bare_export
    (before after : list str) (line : str)
    (environ environ1 : gmap str str) :
  load_env_vars_from_file before environ = (environ1, None) ->
  startswith (u"export") line = true ->
  contains (ord " ") line = false ->
  load_env_vars_from_file (before ++ line :: after) environ
  = (environ1, Some "list index out of range").
Proof.
  intros Hbefore Hs Hc. rewrite load_env_app, Hbefore. simpl.
  by rewrite load_line_no_space.
Qed.

Lemma load_env_stops_at_bare_export_witness :
  load_env_vars_from_file [u"export API_VERSION='v2'"] ∅
  = ({[ u"API_VERSION" := u"v2" ]}, None)
  /\ startswith (u"export") (u"exportAPI_URL='x'") = true
  /\ contains (ord " ") (u"exportAPI_URL='x'") = false
  /\ load_env_vars_from_file
       [u"export API_VERSION='v2'"; u"exportAPI_URL='x'"; u"export API_USERNAME='me'"] ∅
     = ({[ u"API_VERSION" := u"v2" ]}, Some "list index out of range").
Proof.
  split; [reflexivity|]. split; [reflexivity|]. split; [reflexivity|].
  exact (load_env_stops_at_bare_export [u"export API_VERSION='v2'"]
           [u"export API_USERNAME='me'"] (u"exportAPI_URL='x'") ∅ _
           eq_refl eq_refl eq_refl).
Defined.

(** X11. Loading lays the variables of the file over the environment:
    the result is what the file gives on an empty environment, together
    with every earlier variable the file does not set; no variable is
    ever removed, and whether the load raises does not depend on the
    environment. *)
Theorem load_env_overlays_environment
    (lines : list str) (environ : gmap str str) (name : str) :
  let vars := fst (load_env_vars_from_file lines ∅) in
  let after := fst (load_env_vars_from_file lines environ) in
  after !! name
  = match vars !! name with Some value => Some value | None => environ !! name end
  /\ (is_Some (environ !! name) -> is_Some (after !! name))
  /\ snd (load_env_vars_from_file lines environ)
     = snd (load_env_vars_from_file lines ∅).
Proof.
  intros vars after. unfold after. rewrite load_env_union. simpl.
  fold vars. rewrite lookup_union.
  destruct (vars !! name) as [v|] eqn:Hv; simpl.
  - destruct (environ !! name); simpl; (split; [done|]); (split; [by eexists|done]).
  - rewrite (left_id_L None union). done.
Qed.

Lemma load_env_overlays_environment_witness :
  is_Some (({[ u"HOME" := u"/root"; u"API_URL" := u"old" ]} : gmap str str) !! u"HOME")
  /\ fst (load_env_vars_from_file readme_creds {[ u"HOME" := u"/root"; u"API_URL" := u"old" ]})
       !! u"HOME" = Some (u"/root")
  /\ fst (load_env_vars_from_file readme_creds {[ u"HOME" := u"/root"; u"API_URL" := u"old" ]})
       !! u"API_URL" = Some (u"https://demo-api.kalshi.co/trade-api").
Proof.
  split; [by eexists|].
  split.
  - exact (eq_trans
      (proj1 (load_env_overlays_environment readme_creds
                {[ u"HOME" := u"/root"; u"API_URL" := u"old" ]} (u"HOME"))) eq_refl).
  - exact (eq_trans
      (proj1 (load_env_overlays_environment readme_creds
                {[ u"HOME" := u"/root"; u"API_URL" := u"old" ]} (u"API_URL"))) eq_refl).
Defined.

(** X12. Loading a file a second time changes nothing: when a load has
    gone through, loading the same lines into the environment it left
    gives that environment again. *)
Theorem load_env_twice
    (lines : list str) (environ environ1 : gmap str str) :
  load_env_vars_from_file lines environ = (environ1, None) ->
  load_env_vars_from_file lines environ1 = (environ1, None).
Proof.
  rewrite (load_env_union lines environ). intros [= <- Hnone].
  rewrite load_env_union, Hnone. f_equal.
  by rewrite (assoc_L (∪)), (idemp_L (∪)).
Qed.

Lemma load_env_twice_witness :
  let environ1 := fst (load_env_vars_from_file readme_creds ∅) in
  load_env_vars_from_file readme_creds ∅ = (environ1, None)
  /\ load_env_vars_from_file readme_creds environ1 = (environ1, None).
Proof.
  intros environ1.
  assert (H1 : load_env_vars_from_file readme_creds ∅ = (environ1, None))
    by reflexivity.
  split; [exact H1|].
  exact (load_env_twice readme_creds ∅ environ1 H1).
Defined.

(** ** The four lists of plotter *)

Lemma comprehension_lookup {A B} (f : A -> exn_result B) l ys :
  comprehension f l = Returned ys ->
  length ys = length l
  /\ forall i x, l !! i = Some x -> exists y, f x = Returned y /\ ys !! i = Some y.
Proof.
  revert ys. induction l as [|x l IH]; intros ys; simpl.
  - intros [= <-]. split; [done|]. intros i x. by rewrite lookup_nil.
  - destruct (f x) as [y|] eqn:Hy; [|done].
    destruct (comprehension f l) as [ys'|]; [|done].
    intros [= <-]. destruct (IH ys' eq_refl) as [Hlen Hlook].
    split; [simpl; by rewrite Hlen|].
    intros [|i] x'; simpl.
    + intros [= <-]. by exists y.
    + apply Hlook.
Qed.

Lemma getattr_Returned (o : gmap string PyValue) name v :
  getattr o name = Returned v <-> o !! name = Some v.
Proof. unfold getattr. destruct (o !! name); split; congruence. Qed.

(** X13. When the four comprehensions of plotter go through, each of
    the four lists has one element per trade, and the elements at one
    position come from the same trade: its created_time, yes_price, count
    and taker_side. The loop over [range(len(trade_ts))] that labels the
    points therefore stays inside all four. *)
Theorem trade_columns_aligned
    (trades : list (gmap string PyValue)) (cols : TradeColumns) :
  trade_columns trades = Returned cols ->
  length (trade_ts cols) = length trades
  /\ length (trade_price cols) = length trades
  /\ length (trade_quantity cols) = length trades
  /\ length (trade_side cols) = length trades
  /\ forall i t, trades !! i = Some t ->
       trade_ts cols !! i = t !! "created_time"
       /\ trade_price cols !! i = t !! "yes_price"
       /\ trade_quantity cols !! i = t !! "count"
       /\ trade_side cols !! i = t !! "taker_side".
Proof.
  unfold trade_columns.
  destruct (comprehension _ trades) as [ts|] eqn:Hts; [|done].
  destruct (comprehension (fun t => getattr t "yes_price") trades)
    as [price|] eqn:Hprice; [|done].
  destruct (comprehension (fun t => getattr t "count") trades)
    as [quantity|] eqn:Hquantity; [|done].
  destruct (comprehension (fun t => getattr t "taker_side") trades)
    as [side|] eqn:Hside; [|done].
  intros [= <-]. simpl.
  apply comprehension_lookup in Hts as [Hl1 Hts].
  apply comprehension_lookup in Hprice as [Hl2 Hprice].
  apply comprehension_lookup in Hquantity as [Hl3 Hquantity].
  apply comprehension_lookup in Hside as [Hl4 Hside].
  repeat (split; [done|]).
  intros i t Ht.
  destruct (Hts i t Ht) as (y1 & Hy1 & ->).
  destruct (Hprice i t Ht) as (y2 & Hy2%getattr_Returned & ->).
  destruct (Hquantity i t Ht) as (y3 & Hy3%getattr_Returned & ->).
  destruct (Hside i t Ht) as (y4 & Hy4%getattr_Returned & ->).
  repeat split; try done.
  unfold getattr in Hy1. destruct (t !! "created_time") as [[]|]; simpl in Hy1;
    congruence.
Qed.

Lemma trade_columns_aligned_witness :
  trade_columns [sample_trade; sample_trade]
  = Returned (mkTradeColumns
      [PyDatetime (recorded_start + 5000000); PyDatetime (recorded_start + 5000000)]
      [PyInt 45; PyInt 45] [PyInt 10; PyInt 10] [PyEnum "yes"; PyEnum "yes"])
  /\ length [PyEnum "yes"; PyEnum "yes"] = length [sample_trade; sample_trade].
Proof.
  assert (Hcols : trade_columns [sample_trade; sample_trade]
    = Returned (mkTradeColumns
        [PyDatetime (recorded_start + 5000000); PyDatetime (recorded_start + 5000000)]
        [PyInt 45; PyInt 45] [PyInt 10; PyInt 10] [PyEnum "yes"; PyEnum "yes"]))
    by reflexivity.
  split; [exact Hcols|].
  exact (proj1 (proj2 (proj2 (proj2 (trade_columns_aligned _ _ Hcols))))).
Defined.

(** ** Terraform: the sources do not share a policy *)

Lemma length_app_string s rest :
  String.length (s +:+ rest) = (String.length s + String.length rest)%nat.
Proof. induction s as [|c s IH]; simpl; [done|by rewrite IH]. Qed.

Lemma append_inj_l (p a b : string) : p +:+ a = p +:+ b -> a = b.
Proof. induction p as [|c p IH]; simpl; [done|]. intros [= H]. auto. Qed.

Lemma append_inj_r (a b s : string) :
  String.length a = String.length b -> a +:+ s = b +:+ s -> a = b.
Proof.
  revert b. induction a as [|c a IH]; intros [|c' b]; simpl; try done.
  intros [= Hlen] [= -> H]. f_equal. auto.
Qed.

Lemma append_suffix_inj (a b s : string) : a +:+ s = b +:+ s -> a = b.
Proof.
  intros H. apply (append_inj_r a b s); [|done].
  apply (f_equal String.length) in H. rewrite !length_app_string in H. lia.
Qed.

(** X14. Two sources never share a read/write policy: the policies of
    two different keys differ in name and in the resource they allow, so
    the name and the resource of a per-source policy tell its source. *)
Theorem features_raw_source_rw_separate
    (arn key key' : string) (p p' : Terraform.aws_iam_policy) :
  Terraform.features_raw_source_rw arn !! key = Some p ->
  Terraform.features_raw_source_rw arn !! key' = Some p' ->
  (Terraform.name p = Terraform.name p' -> key = key')
  /\ (Terraform.Resource <$> Terraform.Statement (Terraform.policy p)
      = Terraform.Resource <$> Terraform.Statement (Terraform.policy p')
      -> key = key').
Proof.
  unfold Terraform.features_raw_source_rw. rewrite !for_each_lookup.
  repeat case_bool_decide; try done. intros [= <-] [= <-]. simpl. split.
  - intros [= Hname]. by apply (append_suffix_inj _ _ "_rw").
  - intros [= Hres%append_inj_l]. injection Hres as Hres.
    by apply (append_suffix_inj _ _ "/*").
Qed.

Lemma features_raw_source_rw_separate_witness :
  let policies := Terraform.features_raw_source_rw "arn:aws:s3:::b" in
  (exists p p', policies !! "cole" = Some p /\ policies !! "test" = Some p'
     /\ Terraform.name p <> Terraform.name p').
Proof.
  intros policies.
  destruct (proj2 (features_raw_source_rw_keys "arn:aws:s3:::b" "cole"))
    as [p Hp]; [tauto|].
  destruct (proj2 (features_raw_source_rw_keys "arn:aws:s3:::b" "test"))
    as [p' Hp']; [tauto|].
  exists p, p'. split; [exact Hp|]. split; [exact Hp'|].
  intros Hname.
  pose proof (proj1 (features_raw_source_rw_separate _ _ _ _ _ Hp Hp') Hname).
  discriminate.
Defined.

(** ** More on the cleaning cell *)

Lemma clean_cell_band clock csv df4 :
  clean_cell clock csv = Returned df4 ->
  let prices := map (fun r : nat * (Z * Z) => snd (snd r)) (window_trades clock csv) in
  df4 = filter (fun r : nat * (Z * Z) =>
                  in_band (quantile (1 # 100) prices) (quantile (99 # 100) prices)
                    (snd (snd r)) = true)
          (window_trades clock csv).
Proof.
  unfold clean_cell, window_trades. destruct csv as [|first rest]; [done|].
  change (imap pair (first :: rest))
    with ((0%nat, first) :: imap (pair ∘ S) rest).
  cbv zeta. intros Hret.
  assert (Hinj : forall a b : list (nat * (Z * Z)),
            Returned a = Returned b -> a = b) by congruence.
  by apply Hinj in Hret.
Qed.

Lemma window_trades_rows clock csv i ts price :
  (i, (ts, price)) ∈ window_trades clock csv ->
  exists first row, csv !! 0%nat = Some first /\ csv !! i = Some row
    /\ ts = Row.ts_recv row /\ price = Row.price row
    /\ Row.action row = "T"
    /\ market_open_full_datetime_ns clock (day_of_data clock (Row.ts_recv first))
       <= float64_of_int ts
       <= market_close_full_datetime_ns clock (day_of_data clock (Row.ts_recv first)).
Proof.
  unfold window_trades. destruct csv as [|first rest]; [by intros ?%elem_of_nil|].
  cbv zeta. intros Hin.
  apply list_elem_of_fmap in Hin as ([j row] & [= -> -> ->] & Hin).
  apply list_elem_of_filter in Hin as (Haction & Hin).
  apply list_elem_of_filter in Hin as (Hwindow & Hin).
  exists first, row. simpl in *. repeat split; try done; try tauto.
  change ((0%nat, first) :: imap (pair ∘ S) rest)
    with (imap pair (first :: rest)) in Hin.
  apply elem_of_lookup_imap in Hin as (k & x & [= -> ->] & Hk). done.
Qed.

Lemma StronglySorted_sublist {A} (R : A -> A -> Prop) l1 l2 :
  sublist l1 l2 -> StronglySorted R l2 -> StronglySorted R l1.
Proof.
  induction 1 as [|x l1 l2 Hsub IH|x l1 l2 Hsub IH]; intros Hs; [done| |].
  - apply StronglySorted_inv in Hs as [Hs Hall]. constructor; [auto|].
    rewrite Forall_forall in Hall |- *. intros y Hy. apply Hall.
    by eapply elem_of_sublist.
  - apply StronglySorted_inv in Hs as [Hs _]. auto.
Qed.

Lemma seq_StronglySorted a n : StronglySorted lt (seq a n).
Proof.
  revert a. induction n as [|n IH]; intros a; simpl; constructor; [apply IH|].
  apply Forall_forall. intros y Hy%list_elem_of_In%in_seq. lia.
Qed.

Lemma labels_imap_pair {A} (l : list A) : (imap pair l).*1 = seq 0 (length l).
Proof.
  rewrite fmap_imap.
  rewrite (imap_ext _ (fun j _ => j)) by done.
  rewrite imap_seq_0. by rewrite list_fmap_id.
Qed.

Lemma labels_filter_sublist {A} (P : nat * A -> Prop)
    `{!forall r, Decision (P r)} (l : list (nat * A)) :
  sublist ((filter P l).*1) (l.*1).
Proof.
  induction l as [|r l IH]; [done|].
  rewrite filter_cons. case_decide; simpl; by constructor.
Qed.

Lemma window_trades_labels clock csv :
  sublist ((window_trades clock csv).*1) (seq 0 (length csv)).
Proof.
  unfold window_trades. destruct csv as [|first rest]; [done|]. cbv zeta.
  rewrite <- list_fmap_compose.
  rewrite <- (labels_imap_pair (first :: rest)).
  etrans; [apply labels_filter_sublist|]. apply labels_filter_sublist.
Qed.

(** X15. Every row of the cleaned frame is a trade of the dump, kept
    under its own index label: its action is "T", its [ts_recv] and
    [price] are those of that row, and its [ts_recv], as a float64, lies
    between the two bounds the cell computed, both ends included. The
    labels of the frame are strictly increasing: the rows keep the order
    of the dump and none is repeated. *)
Theorem clean_cell_keeps_window_trades_in_order
    (clock : Clock) (csv : list Row.t) (df4 : list (nat * (Z * Z))) :
  clean_cell clock csv = Returned df4 ->
  StronglySorted lt (df4.*1)
  /\ exists first, csv !! 0%nat = Some first
       /\ forall i ts price, (i, (ts, price)) ∈ df4 ->
            exists row, csv !! i = Some row
              /\ ts = Row.ts_recv row /\ price = Row.price row
              /\ Row.action row = "T"
              /\ market_open_full_datetime_ns clock
                   (day_of_data clock (Row.ts_recv first))
                 <= float64_of_int ts
                 <= market_close_full_datetime_ns clock
                      (day_of_data clock (Row.ts_recv first)).
Proof.
  intros Hret. split; [|by apply clean_cell_rows].
  apply clean_cell_band in Hret. cbv zeta in Hret. subst df4.
  eapply StronglySorted_sublist; [|apply (seq_StronglySorted 0 (length csv))].
  etrans; [apply labels_filter_sublist|apply window_trades_labels].
Qed.

Lemma clean_cell_keeps_window_trades_in_order_witness :
  clean_cell eastern_clock sample_csv = Returned [(4%nat, (sep14_utc 19 15, 200))]
  /\ exists row, sample_csv !! 4%nat = Some row /\ Row.action row = "T".
Proof.
  assert (Hret : clean_cell eastern_clock sample_csv
                 = Returned [(4%nat, (sep14_utc 19 15, 200))])
    by (vm_compute; reflexivity).
  split; [exact Hret|].
  destruct (clean_cell_keeps_window_trades_in_order _ _ _ Hret)
    as (_ & first & _ & Hrows).
  destruct (Hrows 4%nat (sep14_utc 19 15) 200) as (row & Hrow & _ & _ & Hact & _).
  - apply list_elem_of_singleton. reflexivity.
  - exists row. split; [exact Hrow|exact Hact].
Defined.

(** X16. A dump without rows makes the cell raise IndexError at
    [df.iloc[0]]; and whenever the cell gives a frame for a dump in
    which no row is a trade, that frame is empty. *)
Theorem clean_cell_without_rows_or_trades
    (clock : Clock) (csv : list Row.t) (df4 : list (nat * (Z * Z))) :
  clean_cell clock [] = Raised "single positional indexer is out-of-bounds"
  /\ (clean_cell clock csv = Returned df4 ->
      Forall (fun row => Row.action row <> "T") csv ->
      df4 = []).
Proof.
  split; [reflexivity|]. intros Hret Hall.
  assert (Hdf3 : window_trades clock csv = []).
  { destruct (window_trades clock csv) as [|[i [ts p]] l] eqn:Hw; [done|].
    assert (Hin : (i, (ts, p)) ∈ window_trades clock csv)
      by (rewrite Hw; by left).
    apply window_trades_rows in Hin as (f & row & _ & Hrow & _ & _ & Hact & _).
    rewrite Forall_forall in Hall. destruct (Hall row); [|done].
    by eapply list_elem_of_lookup_2. }
  apply clean_cell_band in Hret. cbv zeta in Hret.
  rewrite Hdf3 in Hret. by subst df4.
Qed.

Lemma clean_cell_without_rows_or_trades_witness :
  let csv := [Row.mk (sep14_utc 14 0) 100 "A"; Row.mk (sep14_utc 15 0) 110 "C"] in
  exists df4, clean_cell utc_clock csv = Returned df4
    /\ Forall (fun row => Row.action row <> "T") csv
    /\ df4 = [].
Proof.
  intros csv.
  assert (Hret : clean_cell utc_clock csv = Returned [])
    by (vm_compute; reflexivity).
  assert (Hall : Forall (fun row => Row.action row <> "T") csv)
    by (repeat constructor; discriminate).
  exists []. split; [exact Hret|]. split; [exact Hall|].
  exact (proj2 (clean_cell_without_rows_or_trades utc_clock csv []) Hret Hall).
Defined.

(** ** The float comparison *)

Lemma float64_of_int_ulp_256 z :
  2 ^ 60 <= z < 2 ^ 61 ->
  exists q, float64_of_int z = q * 256
    /\ Z.abs (float64_of_int z - z) <= 128.
Proof.
  intros Hz. unfold float64_of_int.
  assert (H60 : 2 ^ 60 = 1152921504606846976) by reflexivity.
  assert (H61 : 2 ^ 61 = 2305843009213693952) by reflexivity.
  assert (H53 : 2 ^ 53 = 9007199254740992) by reflexivity.
  rewrite H60, H61 in Hz.
  rewrite (Z.abs_eq z) by lia.
  destruct (Z.ltb_spec z (2 ^ 53)) as [Hlt|_]; [lia|].
  assert (Hlog : Z.log2 z = 60).
  { apply Z.log2_unique; [lia|]. rewrite H60.
    replace (2 ^ Z.succ 60) with 2305843009213693952 by reflexivity. lia. }
  rewrite Hlog. change (2 ^ (60 - 52)) with 256.
  assert (Hsgn : Z.sgn z = 1) by (apply Z.sgn_pos; lia). rewrite Hsgn.
  pose proof (Z.div_mod z 256 ltac:(lia)) as Hdm.
  pose proof (Z.mod_pos_bound z 256 ltac:(lia)) as Hmod.
  cbv zeta.
  repeat match goal with
         | |- context [?a <? ?b] => destruct (Z.ltb_spec a b)
         | |- context [Z.even ?a] => destruct (Z.even a)
         end;
    match goal with
    | |- exists q, 1 * (?x * 256) = _ /\ _ => exists x
    end; (split; lia).
Qed.

Lemma float64_of_int_exact z :
  2 ^ 60 <= z < 2 ^ 61 -> z mod 256 = 0 -> float64_of_int z = z.
Proof.
  intros Hz Hm. unfold float64_of_int.
  assert (H60 : 2 ^ 60 = 1152921504606846976) by reflexivity.
  assert (H61 : 2 ^ 61 = 2305843009213693952) by reflexivity.
  assert (H53 : 2 ^ 53 = 9007199254740992) by reflexivity.
  rewrite H60, H61 in Hz.
  rewrite (Z.abs_eq z) by lia.
  destruct (Z.ltb_spec z (2 ^ 53)) as [Hlt|_]; [lia|].
  assert (Hlog : Z.log2 z = 60).
  { apply Z.log2_unique; [lia|]. rewrite H60.
    replace (2 ^ Z.succ 60) with 2305843009213693952 by reflexivity. lia. }
  rewrite Hlog. change (2 ^ (60 - 52)) with 256.
  assert (Hsgn : Z.sgn z = 1) by (apply Z.sgn_pos; lia). rewrite Hsgn.
  pose proof (Z.div_mod z 256 ltac:(lia)) as Hdm.
  cbv zeta. rewrite Hm in *.
  destruct (Z.ltb_spec (2 * 0) 256); lia.
Qed.

Lemma eastern_time_ns_mod_256 clock date hour minute :
  eastern_time_ns clock date hour minute mod 256 = 0.
Proof.
  unfold eastern_time_ns. change (10 ^ 9) with (3906250 * 256).
  rewrite Z.mul_assoc. apply Z_mod_mult.
Qed.

(** X18. On a machine whose clock is set to US/Eastern, a row the cell
    keeps lies inside 9:30 to 16:00 Eastern up to the rounding of the
    float comparison: its [ts_recv] is at most 128 ns before the open or
    after the close, for timestamps between 2^60 and 2^61 ns (the years
    2006 to 2043). *)
Theorem clean_cell_eastern_window_within_128ns
    (clock : Clock) (csv : list Row.t) (df4 : list (nat * (Z * Z)))
    (first : Row.t) (i : nat) (ts price : Z) :
  system_utcoffset clock = eastern_utcoffset clock ->
  clean_cell clock csv = Returned df4 ->
  csv !! 0%nat = Some first ->
  (i, (ts, price)) ∈ df4 ->
  let date := day_of_data clock (Row.ts_recv first) in
  2 ^ 60 <= eastern_time_ns clock date 9 30 ->
  eastern_time_ns clock date 16 0 < 2 ^ 61 ->
  2 ^ 60 <= ts < 2 ^ 61 ->
  eastern_time_ns clock date 9 30 - 128 <= ts
  <= eastern_time_ns clock date 16 0 + 128.
Proof.
  intros Hzone Hret Hfirst Hin date Hopen Hclose Hts.
  destruct (clean_cell_rows _ _ _ Hret) as (first' & Hfirst' & Hrows).
  assert (first' = first) by congruence. subst first'.
  destruct (Hrows i ts price Hin) as (row & _ & _ & _ & _ & Hwin).
  fold date in Hwin.
  destruct (eastern_clock_bounds clock date Hzone) as [Ho Hc].
  rewrite Ho, Hc in Hwin.
  assert (Hle : eastern_time_ns clock date 9 30 <= eastern_time_ns clock date 16 0)
    by (unfold eastern_time_ns; lia).
  rewrite (float64_of_int_exact (eastern_time_ns clock date 9 30)) in Hwin
    by (try apply eastern_time_ns_mod_256; lia).
  rewrite (float64_of_int_exact (eastern_time_ns clock date 16 0)) in Hwin
    by (try apply eastern_time_ns_mod_256; lia).
  destruct (float64_of_int_ulp_256 ts Hts) as (_ & _ & Hnear). lia.
Qed.

Lemma clean_cell_eastern_window_within_128ns_witness :
  system_utcoffset eastern_clock = eastern_utcoffset eastern_clock
  /\ clean_cell eastern_clock sample_csv = Returned [(4%nat, (sep14_utc 19 15, 200))]
  /\ 2 ^ 60 <= sep14_utc 19 15 < 2 ^ 61
  /\ eastern_time_ns eastern_clock 19614 9 30 - 128 <= sep14_utc 19 15
     <= eastern_time_ns eastern_clock 19614 16 0 + 128.
Proof.
  assert (Hret : clean_cell eastern_clock sample_csv
                 = Returned [(4%nat, (sep14_utc 19 15, 200))])
    by (vm_compute; reflexivity).
  assert (Hts : 2 ^ 60 <= sep14_utc 19 15 < 2 ^ 61)
    by (split; [apply Z.leb_le|apply Z.ltb_lt]; vm_compute; reflexivity).
  split; [reflexivity|]. split; [exact Hret|]. split; [exact Hts|].
  refine (clean_cell_eastern_window_within_128ns eastern_clock sample_csv _
            (Row.mk (sep14_utc 12 0) 100 "T") 4%nat (sep14_utc 19 15) 200
            eq_refl Hret eq_refl _ _ _ Hts).
  - apply list_elem_of_singleton. reflexivity.
  - apply Z.leb_le. vm_compute. reflexivity.
  - apply Z.ltb_lt. vm_compute. reflexivity.
Defined.
